(** * Text recognition front-end: a shallow embedding of [main.py]

    The program is a GUI shell around a wrapper that hands an image to an
    external OCR engine.  The embedding keeps the program's own functions
    ([get_errors], [cleanup], [prepare], [save], [run_tesseract],
    [run_and_get_output], [image_to_string], [process_image] and the event
    loop) and threads an explicit state through them: the files on disk, the
    store of image objects, the temporary-name supply, the log of launched
    child processes and the output pane.  What the operating system, the
    engine and the imaging library do is a parameter ([lib]). *)

From Stdlib Require Import ZArith Lia List String Ascii.
From Stdlib.Strings Require Import Byte.
From stdpp Require Import base option list gmap strings.

Local Open Scope Z_scope.

(** ** Python values: text and bytes *)

(** A Python [str] is a sequence of Unicode code points; [bytes] is a
    sequence of octets. *)
Abbreviation pystr := (list Z).
Abbreviation pybytes := (list byte).

Definition str (s : string) : pystr :=
  map (fun a => Z.of_N (N_of_ascii a)) (list_ascii_of_string s).

Definition bytes_of (s : string) : pybytes := list_byte_of_string s.

Definition byte_val (b : byte) : Z := Z.of_N (Byte.to_N b).

Module Text.

(** [str.isspace] for one code point, which is also what [str.strip()]
    removes and what the regex class [\s] contains. *)
Definition isspace (c : Z) : bool :=
  ((9 <=? c) && (c <=? 13)) || ((28 <=? c) && (c <=? 32))
  || (c =? 133) || (c =? 160) || (c =? 5760)
  || ((8192 <=? c) && (c <=? 8202))
  || (c =? 8232) || (c =? 8233) || (c =? 8239) || (c =? 8287)
  || (c =? 12288).

(** The line boundaries of [str.splitlines]. *)
Definition islinebreak (c : Z) : bool :=
  ((10 <=? c) && (c <=? 13)) || ((28 <=? c) && (c <=? 30))
  || (c =? 133) || (c =? 8232) || (c =? 8233).

(** [s.splitlines()]: the line in progress is kept reversed in [cur]; a
    carriage return directly followed by a line feed is one boundary, and
    no empty line is produced after the last boundary. *)
Fixpoint splitlines_from (cur : pystr) (s : pystr) : list pystr :=
  match s with
  | [] => match cur with [] => [] | _ => [rev cur] end
  | c :: r =>
      if islinebreak c then
        rev cur ::
          match r with
          | d :: r' =>
              if (c =? 13) && (d =? 10) then splitlines_from [] r'
              else splitlines_from [] r
          | [] => splitlines_from [] r
          end
      else splitlines_from (c :: cur) r
  end.

Definition splitlines (s : pystr) : list pystr := splitlines_from [] s.

(** [sep.join(parts)] *)
Fixpoint join (sep : pystr) (parts : list pystr) : pystr :=
  match parts with
  | [] => []
  | [p] => p
  | p :: rest => p ++ sep ++ join sep rest
  end.

Fixpoint lstrip (s : pystr) : pystr :=
  match s with
  | c :: r => if isspace c then lstrip r else s
  | [] => []
  end.

(** [s.strip()] *)
Definition strip (s : pystr) : pystr := rev (lstrip (rev (lstrip s))).

(** Strict UTF-8, as [bytes.decode('utf-8')]: [None] stands for
    [UnicodeDecodeError]. *)
Definition cont (b : Z) : bool := (128 <=? b) && (b <=? 191).

Definition scalar_ok (lo cp : Z) : bool :=
  (lo <=? cp) && (cp <=? 1114111)
  && negb ((55296 <=? cp) && (cp <=? 57343)).

Definition low6 (b : Z) : Z := Z.land b 63.

Fixpoint utf8_decode (bs : pybytes) : option pystr :=
  match bs with
  | [] => Some []
  | b0 :: r0 =>
      let x0 := byte_val b0 in
      if x0 <? 128 then cons x0 <$> utf8_decode r0
      else if (192 <=? x0) && (x0 <? 224) then
        match r0 with
        | b1 :: r1 =>
            let x1 := byte_val b1 in
            let cp := Z.lor (Z.shiftl (Z.land x0 31) 6) (low6 x1) in
            if cont x1 && scalar_ok 128 cp
            then cons cp <$> utf8_decode r1 else None
        | _ => None
        end
      else if (224 <=? x0) && (x0 <? 240) then
        match r0 with
        | b1 :: b2 :: r2 =>
            let x1 := byte_val b1 in
            let x2 := byte_val b2 in
            let cp := Z.lor (Z.shiftl (Z.land x0 15) 12)
                        (Z.lor (Z.shiftl (low6 x1) 6) (low6 x2)) in
            if cont x1 && cont x2 && scalar_ok 2048 cp
            then cons cp <$> utf8_decode r2 else None
        | _ => None
        end
      else if (240 <=? x0) && (x0 <? 248) then
        match r0 with
        | b1 :: b2 :: b3 :: r3 =>
            let x1 := byte_val b1 in
            let x2 := byte_val b2 in
            let x3 := byte_val b3 in
            let cp := Z.lor (Z.shiftl (Z.land x0 7) 18)
                        (Z.lor (Z.shiftl (low6 x1) 12)
                           (Z.lor (Z.shiftl (low6 x2) 6) (low6 x3))) in
            if cont x1 && cont x2 && cont x3 && scalar_ok 65536 cp
            then cons cp <$> utf8_decode r3 else None
        | _ => None
        end
      else None
  end.

End Text.

(** ** Exceptions, state and the monad of the wrapper *)

(** [errno.ENOENT] *)
Definition ENOENT : Z := 2.
(** [errno.EEXIST], raised by the temporary-file module when every
    candidate name is taken. *)
Definition EEXIST : Z := 17.

(** [os.extsep] and [os.sep] *)
Definition extsep : pystr := str ".".
Definition sep : pystr := str "/".

Inductive exn : Type :=
| TypeError (msg : pystr)
| TesseractError (status : Z) (message : pystr)
| TesseractNotFoundError (msg : pystr)
| OSError (errno : Z) (filename : pystr)
| UnicodeDecodeError
| UnboundLocalError (name : pystr)
| LibraryError (msg : pystr).

Inductive result (A : Type) : Type :=
| Ok (a : A)
| Err (e : exn).
Arguments Ok {A} a.
Arguments Err {A} e.

(** Image modes of the imaging library. *)
Inductive mode : Type :=
| M1 | ML | MP | MRGB | MRGBA | MCMYK | MYCbCr | MLAB | MHSV | MI | MF
| MLA | MPA | MRGBX | MRGBa | MLa.

(** An image object: its [format] attribute, its mode, its [size] and one
    plane of samples per band, in the order of [getbands]. *)
Record image : Type := Image {
  im_format : option pystr;
  im_mode : mode;
  im_size : nat * nat;
  im_planes : list (list Z)
}.

(** What a child process did: the launch failed with an OS error, or the
    child ran to its end, leaving an exit status, its standard error and the
    files as it left them. *)
Inductive launch : Type :=
| LaunchFailed (errno : Z) (filename : pystr)
| Exited (returncode : Z) (stderr : pybytes) (files : gmap pystr pybytes).

(** The collaborators of the program, none of which is its own code. *)
Record lib : Type := Lib {
  (** [subprocess.Popen(cmd, ...)] followed by [communicate()] *)
  os_popen : list pystr -> gmap pystr pybytes -> launch;
  (** the error number with which the OS refuses to delete an existing
      path, if it refuses *)
  os_remove_errno : pystr -> option Z;
  (** [realpath(normpath(normcase(p)))] *)
  os_realpath : pystr -> pystr;
  (** the decoder behind [Image.open] *)
  pil_decode : pybytes -> result image;
  (** the encoder behind [Image.save(..., format=...)] *)
  pil_encode : image -> pystr -> result pybytes;
  (** [im.convert('RGB')], as three planes *)
  pil_convert_rgb : image -> result (list Z * list Z * list Z)
}.

Record state : Type := State {
  files : gmap pystr pybytes;     (* the files on disk, by path *)
  heap : list image;              (* the image objects, by reference *)
  tmp_dir : pystr;                (* [tempfile.gettempdir()] *)
  tmp_names : list pystr;         (* the random names still to be tried *)
  launched : list (list pystr);   (* command lines given to [Popen] *)
  pane : list pystr               (* what was printed to the output pane *)
}.

Definition set_files (f : gmap pystr pybytes) (st : state) : state :=
  State f (heap st) (tmp_dir st) (tmp_names st) (launched st) (pane st).
Definition set_heap (h : list image) (st : state) : state :=
  State (files st) h (tmp_dir st) (tmp_names st) (launched st) (pane st).
Definition set_tmp_names (l : list pystr) (st : state) : state :=
  State (files st) (heap st) (tmp_dir st) l (launched st) (pane st).
Definition set_launched (l : list (list pystr)) (st : state) : state :=
  State (files st) (heap st) (tmp_dir st) (tmp_names st) l (pane st).
Definition set_pane (l : list pystr) (st : state) : state :=
  State (files st) (heap st) (tmp_dir st) (tmp_names st) (launched st) l.

(** A computation of the wrapper: it returns or raises, and leaves a
    state either way. *)
Definition M (A : Type) : Type := state -> result A * state.

Definition ret {A} (a : A) : M A := fun st => (Ok a, st).
Definition raise {A} (e : exn) : M A := fun st => (Err e, st).
Definition bind {A B} (m : M A) (k : A -> M B) : M B :=
  fun st =>
    match m st with
    | (Ok a, st') => k a st'
    | (Err e, st') => (Err e, st')
    end.
Definition get : M state := fun st => (Ok st, st).
Definition modify (f : state -> state) : M unit := fun st => (Ok tt, f st).
Definition lift {A} (r : result A) : M A := fun st => (r, st).

(** [try: body finally: handler]: the handler runs on both exits, and an
    exception of the handler takes the place of the body's outcome. *)
Definition try_finally {A} (body : M A) (handler : M unit) : M A :=
  fun st =>
    match body st with
    | (r, st') =>
        match handler st' with
        | (Ok _, st'') => (r, st'')
        | (Err e, st'') => (Err e, st'')
        end
    end.

Declare Scope py_scope.
Delimit Scope py_scope with py.
Notation "x <- m ;; k" := (bind m (fun x => k))
  (at level 100, m at next level, right associativity) : py_scope.
Notation "m ;;; k" := (bind m (fun _ => k))
  (at level 100, right associativity) : py_scope.
Local Open Scope py_scope.

(** ** The imaging library, as far as [prepare] uses it *)

Module Img.

(** [im.getbands()] *)
Definition getbands (m : mode) : list pystr :=
  match m with
  | M1 => [str "1"]
  | ML => [str "L"]
  | MP => [str "P"]
  | MRGB => [str "R"; str "G"; str "B"]
  | MRGBA => [str "R"; str "G"; str "B"; str "A"]
  | MCMYK => [str "C"; str "M"; str "Y"; str "K"]
  | MYCbCr => [str "Y"; str "Cb"; str "Cr"]
  | MLAB => [str "L"; str "A"; str "B"]
  | MHSV => [str "H"; str "S"; str "V"]
  | MI => [str "I"]
  | MF => [str "F"]
  | MLA => [str "L"; str "A"]
  | MPA => [str "P"; str "A"]
  | MRGBX => [str "R"; str "G"; str "B"; str "X"]
  | MRGBa => [str "R"; str "G"; str "B"; str "a"]
  | MLa => [str "L"; str "a"]
  end.

(** ['A' in image.getbands()] *)
Definition has_band (name : pystr) (im : image) : bool :=
  bool_decide (name ∈ getbands (im_mode im)).

Definition npixels (im : image) : nat :=
  (fst (im_size im) * snd (im_size im))%nat.

Definition plane (k : nat) (im : image) : list Z :=
  default [] (im_planes im !! k).

Fixpoint index_of (name : pystr) (bands : list pystr) : option nat :=
  match bands with
  | [] => None
  | b :: rest =>
      if bool_decide (b = name) then Some 0%nat
      else S <$> index_of name rest
  end.

(** [im.getchannel(name)]: the samples of that band. *)
Definition getchannel (name : pystr) (im : image) : result (list Z) :=
  match index_of name (getbands (im_mode im)) with
  | Some k => Ok (plane k im)
  | None => Err (LibraryError (str "band not found"))
  end.

(** Rounded division by 255 and the blend of the paste with an 8-bit
    mask, as the library computes them on bytes. *)
Definition div255 (a : Z) : Z :=
  let t := a + 128 in Z.shiftr (Z.shiftr t 8 + t) 8.

Definition blend8 (mask out inp : Z) : Z :=
  div255 (out * (255 - mask) + inp * mask).

Definition blend_plane (mask out inp : list Z) : list Z :=
  zip_with (fun a oi => blend8 a (fst oi) (snd oi)) mask (zip out inp).

(** The colour planes the paste reads from its source when the canvas is
    RGB: an RGB, RGBA or RGBa source gives its first three planes, an LA
    source its luminance three times, and any other source is converted
    first. *)
Definition rgb_source (L : lib) (im : image)
  : result (list Z * list Z * list Z) :=
  match im_mode im with
  | MRGB | MRGBA | MRGBa => Ok (plane 0 im, plane 1 im, plane 2 im)
  | MLA => Ok (plane 0 im, plane 0 im, plane 0 im)
  | _ => pil_convert_rgb L im
  end.

(** Object store. *)
Definition deref (r : nat) : M image :=
  fun st =>
    match heap st !! r with
    | Some im => (Ok im, st)
    | None => (Err (TypeError (str "Unsupported image object")), st)
    end.

Definition alloc (im : image) : M nat :=
  fun st => (Ok (length (heap st)), set_heap (heap st ++ [im]) st).

Definition update (r : nat) (im : image) : M unit :=
  modify (fun st => set_heap (<[r := im]> (heap st)) st).

(** [Image.new(mode, size, color)], with one sample of [color] per band *)
Definition new (m : mode) (size : nat * nat) (color : list Z) : M nat :=
  alloc (Image None m size
           (map (replicate (fst size * snd size)%nat) color)).

(** [canvas.paste(src, (0, 0), mask)] on an RGB canvas.  The source and
    the mask have the size of the canvas here, so the region pasted is
    the whole canvas. *)
Definition paste (L : lib) (canvas : nat) (src : image) (mask : list Z)
  : M unit :=
  (dst <- deref canvas ;;
   rgb <- lift (rgb_source L src) ;;
   update canvas
     (Image (im_format dst) (im_mode dst) (im_size dst)
        [blend_plane mask (plane 0 dst) (fst (fst rgb));
         blend_plane mask (plane 1 dst) (snd (fst rgb));
         blend_plane mask (plane 2 dst) (snd rgb)]))%py.

(** [image.format = extension] *)
Definition set_format (r : nat) (f : pystr) : M unit :=
  (im <- deref r ;;
   update r (Image (Some f) (im_mode im) (im_size im) (im_planes im)))%py.

End Img.

(** A Python argument of the wrapper: a path, an image object, or
    something else. *)
Inductive pyval : Type :=
| VStr (s : pystr)
| VImage (r : nat)
| VOther.

(** [prepare(image)] *)
Definition prepare (L : lib) (image : pyval) : M (nat * pystr) :=
  match image with
  | VImage r =>
      im <- Img.deref r ;;
      let extension :=
        match im_format im with
        | None | Some [] => str "PNG"
        | Some f => f
        end in
      r' <- (if Img.has_band (str "A") im then
               background <- Img.new MRGB (im_size im) [255; 255; 255] ;;
               mask <- lift (Img.getchannel (str "A") im) ;;
               Img.paste L background im mask ;;;
               ret background
             else ret r) ;;
      Img.set_format r' extension ;;;
      ret (r', extension)
  | _ => raise (TypeError (str "Unsupported image object"))
  end.

(** ** Path patterns of [glob] *)

Module Glob.

Inductive tok : Type :=
| Lit (c : Z)
| AnyChar
| Star
| Class (stuff : pystr).

(** The characters [*], [?] and [[] make a pattern. *)
Definition magic (c : Z) : bool := (c =? 42) || (c =? 63) || (c =? 91).

(** [glob.has_magic] *)
Definition has_magic (s : pystr) : bool := existsb magic s.

Fixpoint upto_close (s : pystr) : option (pystr * pystr) :=
  match s with
  | [] => None
  | c :: r =>
      if c =? 93 then Some ([], r)
      else (fun ab => (c :: fst ab, snd ab)) <$> upto_close r
  end.

(** The text of a bracket expression, from after its [[] to its closing
    []], and what follows; a leading [!] and a []] right after it belong
    to the text.  Without a closing bracket there is no expression. *)
Definition split_class (s : pystr) : option (pystr * pystr) :=
  let '(pre1, s1) :=
    match s with 33 :: r => ([33], r) | _ => ([], s) end in
  let '(pre2, s2) :=
    match s1 with 93 :: r => ([93], r) | _ => ([], s1) end in
  (fun ab => (pre1 ++ pre2 ++ fst ab, snd ab)) <$> upto_close s2.

Fixpoint tokens (fuel : nat) (pat : pystr) : list tok :=
  match fuel with
  | O => []
  | S n =>
      match pat with
      | [] => []
      | c :: r =>
          if c =? 42 then Star :: tokens n r
          else if c =? 63 then AnyChar :: tokens n r
          else if c =? 91 then
            match split_class r with
            | Some (stuff, rest) => Class stuff :: tokens n rest
            | None => Lit c :: tokens n r
            end
          else Lit c :: tokens n r
      end
  end.

Definition compile (pat : pystr) : list tok := tokens (length pat) pat.

Fixpoint in_items (c : Z) (items : pystr) : bool :=
  match items with
  | lo :: 45 :: hi :: rest =>
      ((lo <=? c) && (c <=? hi)) || in_items c rest
  | x :: rest => (c =? x) || in_items c rest
  | [] => false
  end.

Definition in_class (c : Z) (stuff : pystr) : bool :=
  match stuff with
  | 33 :: items => negb (in_items c items)
  | _ => in_items c stuff
  end.

(** A wildcard stays inside one path component: it never matches the
    separator. *)
Definition in_component (c : Z) : bool := negb (c =? 47).

Fixpoint match_toks (ts : list tok) (p : pystr) {struct ts} : bool :=
  match ts with
  | [] => match p with [] => true | _ => false end
  | Lit c :: ts' =>
      match p with
      | x :: p' => (x =? c) && match_toks ts' p'
      | [] => false
      end
  | AnyChar :: ts' =>
      match p with
      | x :: p' => in_component x && match_toks ts' p'
      | [] => false
      end
  | Class stuff :: ts' =>
      match p with
      | x :: p' => in_component x && in_class x stuff && match_toks ts' p'
      | [] => false
      end
  | Star :: ts' =>
      (fix star (q : pystr) : bool :=
         match_toks ts' q
         || match q with
            | x :: q' => in_component x && star q'
            | [] => false
            end) p
  end.

(** Whether the path [p] is one of the results of the pattern [pat]. *)
Definition matches (pat p : pystr) : bool := match_toks (compile pat) p.

End Glob.

(** ** Files *)

Module Fs.

(** [glob.iglob(pattern)]: the paths on disk the pattern matches (the
    rule that hides dot files from a leading wildcard is left out: the
    last component of the program's patterns starts with [tess_]). *)
Definition iglob (pattern : pystr) : M (list pystr) :=
  fun st =>
    (Ok match pattern with
        | [] => []
        | _ => List.filter (Glob.matches pattern)
                 (map fst (map_to_list (files st)))
        end, st).

(** [os.remove(path)] *)
Definition remove (L : lib) (path : pystr) : M unit :=
  fun st =>
    match files st !! path with
    | None => (Err (OSError ENOENT path), st)
    | Some _ =>
        match os_remove_errno L path with
        | Some e => (Err (OSError e path), st)
        | None => (Ok tt, set_files (delete path (files st)) st)
        end
    end.

(** [open(path, 'rb').read()] *)
Definition read (path : pystr) : M pybytes :=
  fun st =>
    match files st !! path with
    | Some data => (Ok data, st)
    | None => (Err (OSError ENOENT path), st)
    end.

Definition write (path : pystr) (data : pybytes) : M unit :=
  modify (fun st => set_files (<[path := data]> (files st)) st).

(** The name search of the temporary-file module: the first candidate
    whose path is free. *)
Fixpoint first_free (dir : pystr) (cands : list pystr)
    (fs : gmap pystr pybytes) : option (pystr * list pystr) :=
  match cands with
  | [] => None
  | c :: rest =>
      let name := dir ++ sep ++ str "tess_" ++ c in
      match fs !! name with
      | None => Some (name, rest)
      | Some _ => first_free dir rest fs
      end
  end.

(** [NamedTemporaryFile(prefix='tess_', delete=False)]: creates the empty
    file and gives its name. *)
Definition NamedTemporaryFile : M pystr :=
  fun st =>
    match first_free (tmp_dir st) (tmp_names st) (files st) with
    | Some (name, rest) =>
        (Ok name,
         set_tmp_names rest (set_files (<[name := []]> (files st)) st))
    | None =>
        (Err (OSError EEXIST (str "No usable temporary file name found")),
         set_tmp_names [] st)
    end.

End Fs.

(** [try: m except OSError as e: handler(e)] *)
Definition except_OSError {A} (m : M A) (handler : Z -> pystr -> M A)
  : M A :=
  fun st =>
    match m st with
    | (Err (OSError errno filename), st') => handler errno filename st'
    | other => other
    end.

(** ** The wrapper *)

Definition tesseract_cmd : pystr := str "tesseract".

(** [TesseractNotFoundError()] *)
Definition tesseract_not_found : exn :=
  TesseractNotFoundError
    (tesseract_cmd ++ str " is not installed or it's not in your PATH."
       ++ str " See README file for more information.").

(** [get_errors(error_string)] *)
Definition get_errors (error_string : pybytes) : result pystr :=
  match Text.utf8_decode error_string with
  | Some text =>
      Ok (Text.strip (Text.join (str " ") (Text.splitlines text)))
  | None => Err UnicodeDecodeError
  end.

(** The body of the loop of [cleanup]: [remove] under its handler. *)
Definition guarded_remove (L : lib) (filename : pystr) : M unit :=
  except_OSError (Fs.remove L filename)
    (fun errno f =>
       if negb (errno =? ENOENT) then raise (OSError errno f) else ret tt).

(** The loop of [cleanup] over the names the pattern gave. *)
Fixpoint cleanup_each (L : lib) (names : list pystr) : M unit :=
  match names with
  | [] => ret tt
  | filename :: rest => guarded_remove L filename ;;; cleanup_each L rest
  end.

(** [cleanup(temp_name)] *)
Definition cleanup (L : lib) (temp_name : pystr) : M unit :=
  names <- Fs.iglob (match temp_name with
                     | [] => temp_name
                     | _ => temp_name ++ str "*"
                     end) ;;
  cleanup_each L names.

(** [image.save(path, format=image.format)] *)
Definition image_save (L : lib) (r : nat) (path : pystr) : M unit :=
  im <- Img.deref r ;;
  data <- lift (pil_encode L im (default [] (im_format im))) ;;
  Fs.write path data.

(** The body of [save] between the creation of the temporary file and the
    [finally]: what is done before the [yield], then the block of the
    caller's [with], which receives the pair yielded. *)
Definition save_body {A} (L : lib) (image : pyval) (f : pystr)
    (block : pystr -> pystr -> M A) : M A :=
  match image with
  | VStr s => block f (os_realpath L s)
  | _ =>
      ie <- prepare L image ;;
      let input_file_name := f ++ extsep ++ snd ie in
      image_save L (fst ie) input_file_name ;;;
      block f input_file_name
  end.

(** [with save(image) as (temp_name, input_filename): block].  When the
    temporary file cannot be created the name [f] of the [finally] clause is
    unbound. *)
Definition with_save {A} (L : lib) (image : pyval)
    (block : pystr -> pystr -> M A) : M A :=
  fun st =>
    match Fs.NamedTemporaryFile st with
    | (Ok f, st1) => try_finally (save_body L image f block) (cleanup L f) st1
    | (Err _, st1) => (Err (UnboundLocalError (str "f")), st1)
    end.

(** [subprocess.Popen(cmd_args, ...)] and [proc.communicate()]: the child's
    exit status and standard error. *)
Definition Popen (L : lib) (cmd_args : list pystr) : M (Z * pybytes) :=
  fun st =>
    let st1 := set_launched (launched st ++ [cmd_args]) st in
    match os_popen L cmd_args (files st) with
    | LaunchFailed errno filename => (Err (OSError errno filename), st1)
    | Exited returncode stderr fs' =>
        (Ok (returncode, stderr), set_files fs' st1)
    end.

(** [with timeout_manager(proc) as error_string: block]; closing the three
    streams at the end changes nothing that is modelled. *)
Definition with_timeout_manager {A} (proc : Z * pybytes)
    (block : pybytes -> M A) : M A :=
  try_finally (block (snd proc)) (ret tt).

(** [run_tesseract(input_filename, output_filename_base, extension, lang)] *)
Definition run_tesseract (L : lib) (input_filename output_filename_base
    extension : pystr) (lang : option pystr) : M unit :=
  let cmd_args := [] in
  let cmd_args :=
    cmd_args ++ [tesseract_cmd; input_filename; output_filename_base] in
  let cmd_args :=
    match lang with
    | Some l => cmd_args ++ [str "-l"; l]
    | None => cmd_args
    end in
  let cmd_args :=
    match extension with
    | [] => cmd_args
    | _ => cmd_args ++ [extension]
    end in
  proc <- except_OSError (Popen L cmd_args)
            (fun errno f =>
               if negb (errno =? ENOENT) then raise (OSError errno f)
               else raise tesseract_not_found) ;;
  with_timeout_manager proc
    (fun error_string =>
       if negb (fst proc =? 0) then
         message <- lift (get_errors error_string) ;;
         raise (TesseractError (fst proc) message)
       else ret tt).

(** The block under [with save(image)] in [run_and_get_output]. *)
Definition output_block (L : lib) (extension : pystr) (lang : option pystr)
    (temp_name input_filename : pystr) : M pystr :=
  run_tesseract L input_filename temp_name extension lang ;;;
  let filename := temp_name ++ extsep ++ extension in
  data <- Fs.read filename ;;
  match Text.utf8_decode data with
  | Some text => ret text
  | None => raise UnicodeDecodeError
  end.

(** [run_and_get_output(image, extension, lang)] *)
Definition run_and_get_output (L : lib) (image : pyval)
    (extension : pystr) (lang : option pystr) : M pystr :=
  with_save L image (output_block L extension lang).

(** [image_to_string(image, lang)] *)
Definition image_to_string (L : lib) (image : pyval) (lang : option pystr)
  : M pystr :=
  run_and_get_output L image (str "txt") lang.

(** [Image.open(image_name)] *)
Definition Image_open (L : lib) (image_name : pystr) : M nat :=
  data <- Fs.read image_name ;;
  im <- lift (pil_decode L data) ;;
  Img.alloc im.

(** [process_image(image_name, lang_code)] *)
Definition process_image (L : lib) (image_name lang_code : pystr)
  : M pystr :=
  r <- Image_open L image_name ;;
  image_to_string L (VImage r) (Some lang_code).

(** ** The GUI shell *)

Module Re.

Inductive atom : Type :=
| Lit (c : Z)
| Dot          (* [.]: any character but a line feed *)
| NonSpace.    (* [\S] *)

Inductive regex : Type :=
| Eps
| Atom (a : atom)
| Plus (a : atom)
| Seq (r1 r2 : regex)
| Alt (r1 r2 : regex)
| EndOfString. (* [$]: at the end, or before a line feed that ends the string *)

Definition atom_matches (a : atom) (c : Z) : bool :=
  match a with
  | Lit d => c =? d
  | Dot => negb (c =? 10)
  | NonSpace => negb (Text.isspace c)
  end.

(** Where [$] holds: at the end of the string, and before a line feed
    that ends it. *)
Definition at_end (s : pystr) : bool :=
  match s with
  | [] => true
  | [c] => c =? 10
  | _ => false
  end.

Fixpoint plus_rests (a : atom) (s : pystr) : list pystr :=
  match s with
  | c :: s' => if atom_matches a c then s' :: plus_rests a s' else []
  | [] => []
  end.

(** What can be left of [s] after a match of [r] at its start. *)
Fixpoint rests (r : regex) (s : pystr) : list pystr :=
  match r with
  | Eps => [s]
  | Atom a =>
      match s with
      | c :: s' => if atom_matches a c then [s'] else []
      | [] => []
      end
  | Plus a => plus_rests a s
  | Seq r1 r2 => flat_map (rests r2) (rests r1 s)
  | Alt r1 r2 => rests r1 s ++ rests r2 s
  | EndOfString => if at_end s then [s] else []
  end.

(** [re.match(r, s)] as a truth value: some match at the start of [s]. *)
Definition re_match (r : regex) (s : pystr) : bool :=
  match rests r s with
  | [] => false
  | _ => true
  end.

Fixpoint word (w : pystr) : regex :=
  match w with
  | [] => Eps
  | c :: w' => Seq (Atom (Lit c)) (word w')
  end.

End Re.

(** [image_regex = '\S+.(png|jpg|jpeg)$'] *)
Definition image_regex : Re.regex :=
  Re.Seq (Re.Plus Re.NonSpace)
    (Re.Seq (Re.Atom Re.Dot)
       (Re.Seq (Re.Alt (Re.word (str "png"))
                  (Re.Alt (Re.word (str "jpg")) (Re.word (str "jpeg"))))
          Re.EndOfString)).

(** What one turn of the [while True] loop ends in. *)
Inductive turn : Type :=
| Continue (st : state)
| Break (st : state)
| Uncaught (e : exn) (st : state).

(** [print(text)] *)
Definition print (text : pystr) (st : state) : state :=
  set_pane (pane st ++ [text]) st.

(** One turn of the loop on what [window.read()] gave: the event, and the
    values of the text field and of the first radio button ([None] when the
    window has gone). *)
Definition loop_turn (L : lib) (event : option pystr)
    (values : option (pystr * bool)) (st : state) : turn :=
  match values with
  | None => Uncaught (TypeError (str "'NoneType' object is not subscriptable")) st
  | Some (file_path, rus) =>
      let lang_code := if rus then str "rus" else str "eng" in
      if bool_decide (event = None \/ event = Some (str "Exit")) then Break st
      else if bool_decide (event = Some (str "Submit"))
              && Re.re_match image_regex file_path then
        match process_image L file_path lang_code st with
        | (Ok data, st') => Continue (print data st')
        | (Err e, st') => Uncaught e st'
        end
      else Continue (print (str "File path is invalid") st)
  end.

(** The loop over the successive results of [window.read()]; when they run
    out the loop is waiting in [window.read()]. *)
Fixpoint event_loop (L : lib)
    (reads : list (option pystr * option (pystr * bool))) (st : state)
  : turn :=
  match reads with
  | [] => Continue st
  | (event, values) :: rest =>
      match loop_turn L event values st with
      | Continue st' => event_loop L rest st'
      | stop => stop
      end
  end.

(** The state a turn ends in. *)
Definition turn_state (t : turn) : state :=
  match t with
  | Continue st | Break st | Uncaught _ st => st
  end.

(** ** The contract with the engine, in the words of the specification *)

(** [<engine> <input_path> <output_base> [-l <lang>] [<output_format>]] *)
Definition cli_contract (input_path output_base : pystr)
    (lang : option pystr) (output_format : pystr) : list pystr :=
  tesseract_cmd :: input_path :: output_base
    :: match lang with Some l => [str "-l"; l] | None => [] end
    ++ match output_format with [] => [] | _ => [output_format] end.

(** Round-to-nearest compositing of a sample [c] with opacity [a] over
    white. *)
Definition over_white (c a : Z) : Z :=
  (2 * (c * a + 255 * (255 - a)) + 255) / 510.

(** The files of one request: the paths made of the temp base name and a
    tail inside the same directory. *)
Definition in_temp_set (base p : pystr) : Prop :=
  exists tail, p = base ++ tail /\ Forall (fun c => c <> 47) tail.

(** A sample is one byte. *)
Definition sample (v : Z) : Prop := 0 <= v <= 255.

(** A decoded image has one plane per band, each with one sample per
    pixel. *)
Definition wf_image (im : image) : Prop :=
  length (im_planes im) = length (Img.getbands (im_mode im))
  /\ Forall (fun pl => length pl = Img.npixels im /\ Forall sample pl)
       (im_planes im).

(** The format tag [prepare] derives: ['PNG' if not image.format else
    image.format]. *)
Definition format_tag (im : image) : pystr :=
  match im_format im with
  | None | Some [] => str "PNG"
  | Some f => f
  end.

(** A computation preserves a component of the state when it leaves it as
    it found it, whether it returns or raises. *)
Definition preserves {X : Type} (proj : state -> X) {A : Type} (m : M A)
  : Prop :=
  forall st, proj (snd (m st)) = proj st.

(** ** A test bench: a small world to run the program in *)

Module Bench.

Definition base : pystr := str "/tmp/tess_k3x9q_a1".

(** An engine that writes [out] to [<base>.txt] and exits with [status],
    printing [err] on its standard error. *)
Definition engine (status : Z) (out err : pybytes)
    (cmd : list pystr) (fs : gmap pystr pybytes) : launch :=
  match cmd with
  | _ :: _ :: b :: _ =>
      Exited status err
        (if status =? 0 then <[b ++ str ".txt" := out]> fs else fs)
  | _ => Exited 2 err fs
  end.

Definition missing_engine (cmd : list pystr) (fs : gmap pystr pybytes)
  : launch :=
  LaunchFailed ENOENT (str "tesseract").

(** An engine that exits with status 0 and writes nothing. *)
Definition silent_engine (cmd : list pystr) (fs : gmap pystr pybytes)
  : launch :=
  Exited 0 [] fs.

Definition mk (popen : list pystr -> gmap pystr pybytes -> launch)
    (refuse : pystr -> option Z) : lib :=
  Lib popen refuse (fun p => p)
    (fun data => Ok (Image (Some (str "PNG")) MRGB (1, 1)%nat [[0]; [0]; [0]]))
    (fun im fmt => Ok (bytes_of "encoded"))
    (fun im => Err (LibraryError (str "conversion not supported"))).

Definition rgba : image :=
  Image (Some (str "PNG")) MRGBA (2, 1)%nat
    [[10; 200]; [20; 100]; [30; 0]; [255; 0]].

Definition rgb : image :=
  Image None MRGB (1, 1)%nat [[1]; [2]; [3]].

Definition st0 : state :=
  State {[ str "/home/u/scan.png" := bytes_of "png data" ]}
    [rgb; rgba] (str "/tmp") [str "k3x9q_a1"] [] [].

(** The states of a request on the image at reference 0, after the
    temporary file was created and after the input was persisted. *)
Definition st1 : state := snd (Fs.NamedTemporaryFile st0).

Definition st2 (L : lib) : state :=
  snd (save_body L (VImage 0) base (fun _ i => ret i) st1).

End Bench.

(** * Properties *)

(** ** Text *)

Example splitlines_crlf :
  Text.splitlines (str "a" ++ [13; 10] ++ str "b" ++ [10])
  = [str "a"; str "b"].
Proof. reflexivity. Qed.

Example splitlines_blank_line :
  Text.splitlines (str "a" ++ [10; 10] ++ str "b") = [str "a"; []; str "b"].
Proof. reflexivity. Qed.

Example utf8_ascii :
  Text.utf8_decode (bytes_of "hello world") = Some (str "hello world").
Proof. reflexivity. Qed.

Example utf8_two_bytes : Text.utf8_decode [xd0; x96] = Some [1046].
Proof. reflexivity. Qed.

Example utf8_overlong : Text.utf8_decode [xc0; x80] = None.
Proof. reflexivity. Qed.

Example utf8_stray : Text.utf8_decode [xff] = None.
Proof. reflexivity. Qed.

Example get_errors_two_lines :
  get_errors (bytes_of "  Error: bad image" ++ [x0a] ++ bytes_of "giving up" ++ [x0a])
  = Ok (str "Error: bad image giving up").
Proof. reflexivity. Qed.

(** ** The engine invoker *)

(** The command line is built in the order of the contract. *)
Lemma cmd_args_contract (inp base ext : pystr) (lang : option pystr) :
  (let cmd_args := [] in
   let cmd_args := cmd_args ++ [tesseract_cmd; inp; base] in
   let cmd_args :=
     match lang with
     | Some l => cmd_args ++ [str "-l"; l]
     | None => cmd_args
     end in
   match ext with
   | [] => cmd_args
   | _ => cmd_args ++ [ext]
   end) = cli_contract inp base lang ext.
Proof.
  unfold cli_contract. destruct lang as [l|], ext as [|c ext]; reflexivity.
Qed.

(** [run_tesseract], one case per outcome of the launch. *)
Lemma run_tesseract_cases (L : lib) (inp base ext : pystr)
    (lang : option pystr) (st : state) :
  run_tesseract L inp base ext lang st =
  let cmd := cli_contract inp base lang ext in
  let st1 := set_launched (launched st ++ [cmd]) st in
  match os_popen L cmd (files st) with
  | LaunchFailed errno f =>
      (Err (if errno =? ENOENT then tesseract_not_found else OSError errno f),
       st1)
  | Exited rc err fs' =>
      (if rc =? 0 then Ok tt
       else match get_errors err with
            | Ok message => Err (TesseractError rc message)
            | Err e => Err e
            end,
       set_files fs' st1)
  end.
Proof.
  unfold run_tesseract. rewrite cmd_args_contract.
  unfold bind, except_OSError, Popen, with_timeout_manager, try_finally.
  cbv zeta.
  destruct (os_popen L _ (files st)) as [errno f|rc err fs']; cbn.
  - destruct (errno =? ENOENT); reflexivity.
  - destruct (rc =? 0); cbn; [reflexivity|].
    unfold lift, raise. destruct (get_errors err); reflexivity.
Qed.

(** C8: [run_tesseract] gives [Popen] one command line, made of the
    executable name, the input path and the output base in this order, then
    [-l] and the language exactly when a language is given, then the format
    token exactly when the extension is not empty. *)
Theorem run_tesseract_command_line (L : lib) (inp base ext : pystr)
    (lang : option pystr) (st : state) :
  exists lang_part ext_part,
    launched (snd (run_tesseract L inp base ext lang st))
    = launched st ++ [[tesseract_cmd; inp; base] ++ lang_part ++ ext_part]
    /\ cli_contract inp base lang ext
       = [tesseract_cmd; inp; base] ++ lang_part ++ ext_part
    /\ (forall l, lang = Some l <-> lang_part = [str "-l"; l])
    /\ (lang = None <-> lang_part = [])
    /\ (ext <> [] <-> ext_part = [ext])
    /\ (ext = [] <-> ext_part = []).
Proof.
  exists (match lang with Some l => [str "-l"; l] | None => [] end),
         (match ext with [] => [] | _ => [ext] end).
  split; [|split].
  - rewrite run_tesseract_cases. cbv zeta.
    destruct (os_popen L _ (files st)); reflexivity.
  - reflexivity.
  - repeat split; destruct lang, ext; intros; congruence.
Qed.

Example command_line_eng :
  cli_contract (str "/tmp/tess_a.PNG") (str "/tmp/tess_a") (Some (str "eng"))
    (str "txt")
  = [str "tesseract"; str "/tmp/tess_a.PNG"; str "/tmp/tess_a"; str "-l";
     str "eng"; str "txt"].
Proof. reflexivity. Qed.

(** C4: when the launch fails with ENOENT, [run_tesseract] raises
    [TesseractNotFoundError], whose message starts with the executable name
    and ends with the hint; when it fails with another error number, the
    same OS error is raised. *)
Theorem run_tesseract_launch_failure (L : lib) (inp base ext : pystr)
    (lang : option pystr) (st : state) (errno : Z) (f : pystr)
    (Hlaunch : os_popen L (cli_contract inp base lang ext) (files st)
               = LaunchFailed errno f) :
  (errno = ENOENT ->
     fst (run_tesseract L inp base ext lang st) = Err tesseract_not_found)
  /\ (errno <> ENOENT ->
     fst (run_tesseract L inp base ext lang st) = Err (OSError errno f))
  /\ tesseract_not_found
     = TesseractNotFoundError
         (tesseract_cmd ++ str " is not installed or it's not in your PATH."
            ++ str " See README file for more information.").
Proof.
  rewrite run_tesseract_cases. cbv zeta. rewrite Hlaunch. cbn [fst].
  split; [|split].
  - intros ->. reflexivity.
  - intros Hne. apply Z.eqb_neq in Hne. rewrite Hne. reflexivity.
  - reflexivity.
Qed.

Lemma run_tesseract_launch_failure_witness :
  fst (run_tesseract (Bench.mk Bench.missing_engine (fun _ => None))
         (str "/tmp/tess_a.PNG") (str "/tmp/tess_a") (str "txt")
         (Some (str "eng")) Bench.st0)
  = Err (TesseractNotFoundError
           (str "tesseract is not installed or it's not in your PATH. See README file for more information.")).
Proof.
  exact (proj1 (run_tesseract_launch_failure
                  (Bench.mk Bench.missing_engine (fun _ => None))
                  (str "/tmp/tess_a.PNG") (str "/tmp/tess_a") (str "txt")
                  (Some (str "eng")) Bench.st0 ENOENT (str "tesseract")
                  eq_refl) eq_refl).
Defined.

(** An engine that fails with a standard error that is not UTF-8: the call
    ends in the decoding error, not in [TesseractError]. *)
Lemma run_tesseract_undecodable_stderr :
  os_popen (Bench.mk (Bench.engine 1 [] [xff]) (fun _ => None))
    (cli_contract (str "/tmp/tess_a.PNG") (str "/tmp/tess_a")
       (Some (str "eng")) (str "txt"))
    (files Bench.st0)
  = Exited 1 [xff] (files Bench.st0)
  /\ fst (run_tesseract (Bench.mk (Bench.engine 1 [] [xff]) (fun _ => None))
            (str "/tmp/tess_a.PNG") (str "/tmp/tess_a") (str "txt")
            (Some (str "eng")) Bench.st0)
     = Err UnicodeDecodeError
  /\ forall message,
       fst (run_tesseract (Bench.mk (Bench.engine 1 [] [xff]) (fun _ => None))
              (str "/tmp/tess_a.PNG") (str "/tmp/tess_a") (str "txt")
              (Some (str "eng")) Bench.st0)
       <> Err (TesseractError 1 message).
Proof.
  split; [reflexivity|]. split; [reflexivity|].
  intros message H. vm_compute in H. discriminate H.
Qed.

(** C3, amended: when the child exits with a non-zero status,
    [run_tesseract] raises [TesseractError] with that status and with the
    lines of the decoded standard error joined by single spaces and
    stripped, provided the standard error is valid UTF-8; when it is not,
    the decoding error is raised.  The standard error [Error: bad image]
    gives the message [Error: bad image]. *)
Theorem run_tesseract_engine_failure (L : lib) (inp base ext : pystr)
    (lang : option pystr) (st : state) (rc : Z) (err : pybytes)
    (fs' : gmap pystr pybytes)
    (Hlaunch : os_popen L (cli_contract inp base lang ext) (files st)
               = Exited rc err fs')
    (Hrc : rc <> 0) :
  (forall text, Text.utf8_decode err = Some text ->
     fst (run_tesseract L inp base ext lang st)
     = Err (TesseractError rc
              (Text.strip (Text.join (str " ") (Text.splitlines text)))))
  /\ (Text.utf8_decode err = None ->
     fst (run_tesseract L inp base ext lang st) = Err UnicodeDecodeError)
  /\ get_errors (bytes_of "Error: bad image") = Ok (str "Error: bad image").
Proof.
  rewrite run_tesseract_cases. cbv zeta. rewrite Hlaunch. cbn [fst].
  apply Z.eqb_neq in Hrc. rewrite Hrc. unfold get_errors.
  split; [|split].
  - intros text ->. reflexivity.
  - intros ->. reflexivity.
  - reflexivity.
Qed.

Lemma run_tesseract_engine_failure_witness :
  fst (run_tesseract
         (Bench.mk (Bench.engine 2 [] (bytes_of "Error: bad image"))
            (fun _ => None))
         (str "/tmp/tess_a.PNG") (str "/tmp/tess_a") (str "txt")
         (Some (str "eng")) Bench.st0)
  = Err (TesseractError 2 (str "Error: bad image")).
Proof.
  exact (proj1 (run_tesseract_engine_failure
                  (Bench.mk (Bench.engine 2 [] (bytes_of "Error: bad image"))
                     (fun _ => None))
                  (str "/tmp/tess_a.PNG") (str "/tmp/tess_a") (str "txt")
                  (Some (str "eng")) Bench.st0 2 (bytes_of "Error: bad image")
                  (files Bench.st0) eq_refl ltac:(discriminate))
           (str "Error: bad image") eq_refl).
Defined.

(** ** What a computation leaves alone *)

Section Frame.

Context {X : Type} (proj : state -> X).
Hypothesis proj_files : forall f st, proj (set_files f st) = proj st.
Hypothesis proj_heap : forall h st, proj (set_heap h st) = proj st.
Hypothesis proj_names : forall l st, proj (set_tmp_names l st) = proj st.

Local Abbreviation keeps := (preserves proj).

Lemma keeps_ret {A} (a : A) : keeps (ret a).
Proof. intros st. reflexivity. Qed.

Lemma keeps_raise {A} (e : exn) : keeps (@raise A e).
Proof. intros st. reflexivity. Qed.

Lemma keeps_lift {A} (r : result A) : keeps (lift r).
Proof. intros st. reflexivity. Qed.

Lemma keeps_bind {A B} (m : M A) (k : A -> M B) :
  keeps m -> (forall a, keeps (k a)) -> keeps (bind m k).
Proof.
  intros Hm Hk st. unfold bind. specialize (Hm st).
  destruct (m st) as [[a|e] st']; cbn in *.
  - rewrite Hk. exact Hm.
  - exact Hm.
Qed.

Lemma keeps_try_finally {A} (m : M A) (h : M unit) :
  keeps m -> keeps h -> keeps (try_finally m h).
Proof.
  intros Hm Hh st. unfold try_finally. specialize (Hm st).
  destruct (m st) as [r st']. specialize (Hh st').
  destruct (h st') as [[u|e] st'']; cbn in *; congruence.
Qed.

Lemma keeps_except {A} (m : M A) (h : Z -> pystr -> M A) :
  keeps m -> (forall errno f, keeps (h errno f)) ->
  keeps (except_OSError m h).
Proof.
  intros Hm Hh st. unfold except_OSError. specialize (Hm st).
  destruct (m st) as [[a|e] st']; cbn in *; [exact Hm|].
  destruct e; cbn; try exact Hm.
  rewrite Hh. exact Hm.
Qed.

Lemma keeps_deref (r : nat) : keeps (Img.deref r).
Proof. intros st. unfold Img.deref. destruct (heap st !! r); reflexivity. Qed.

Lemma keeps_alloc (im : image) : keeps (Img.alloc im).
Proof. intros st. apply proj_heap. Qed.

Lemma keeps_update (r : nat) (im : image) : keeps (Img.update r im).
Proof. intros st. apply proj_heap. Qed.

Lemma keeps_read (p : pystr) : keeps (Fs.read p).
Proof. intros st. unfold Fs.read. destruct (files st !! p); reflexivity. Qed.

Lemma keeps_write (p : pystr) (d : pybytes) : keeps (Fs.write p d).
Proof. intros st. apply proj_files. Qed.

Lemma keeps_iglob (pat : pystr) : keeps (Fs.iglob pat).
Proof. intros st. reflexivity. Qed.

Lemma keeps_remove (L : lib) (p : pystr) : keeps (Fs.remove L p).
Proof.
  intros st. unfold Fs.remove.
  destruct (files st !! p); [|reflexivity].
  destruct (os_remove_errno L p); [reflexivity|]. apply proj_files.
Qed.

Lemma keeps_NamedTemporaryFile : keeps Fs.NamedTemporaryFile.
Proof.
  intros st. unfold Fs.NamedTemporaryFile.
  destruct (Fs.first_free _ _ _) as [[name rest]|]; cbn.
  - rewrite proj_names. apply proj_files.
  - apply proj_names.
Qed.

Hint Resolve keeps_ret keeps_raise keeps_lift keeps_deref keeps_alloc
  keeps_update keeps_read keeps_write keeps_iglob keeps_remove
  keeps_NamedTemporaryFile : core.

Ltac keeps_steps :=
  repeat first
    [ solve [auto]
    | apply keeps_bind | apply keeps_try_finally | apply keeps_except
    | match goal with |- forall _, _ => intro end ].

Lemma keeps_prepare (L : lib) (image : pyval) : keeps (prepare L image).
Proof.
  destruct image as [s|r|]; cbn; auto.
  apply keeps_bind; auto. intros im.
  apply keeps_bind.
  - destruct (Img.has_band _ im); auto.
    unfold Img.new, Img.paste. keeps_steps.
  - intros r'. unfold Img.set_format. keeps_steps.
Qed.

Lemma keeps_cleanup_each (L : lib) (names : list pystr) :
  keeps (cleanup_each L names).
Proof.
  induction names as [|p names IH]; cbn [cleanup_each]; auto.
  apply keeps_bind; [|intros _; exact IH].
  apply keeps_except; auto.
  intros errno f. destruct (negb _); auto.
Qed.

Lemma keeps_cleanup (L : lib) (temp_name : pystr) :
  keeps (cleanup L temp_name).
Proof.
  unfold cleanup. apply keeps_bind; auto.
  intros names. apply keeps_cleanup_each.
Qed.

Lemma keeps_image_save (L : lib) (r : nat) (p : pystr) :
  keeps (image_save L r p).
Proof. unfold image_save. keeps_steps. Qed.

Lemma keeps_Image_open (L : lib) (p : pystr) : keeps (Image_open L p).
Proof. unfold Image_open. keeps_steps. Qed.

Lemma keeps_save_body {A} (L : lib) (image : pyval) (f : pystr)
    (block : pystr -> pystr -> M A) :
  (forall a b, keeps (block a b)) -> keeps (save_body L image f block).
Proof.
  intros Hb. pose proof (keeps_prepare L) as Hp.
  pose proof (keeps_image_save L) as Hs.
  unfold save_body. destruct image; cbv beta iota; keeps_steps.
Qed.

Lemma keeps_with_save {A} (L : lib) (image : pyval)
    (block : pystr -> pystr -> M A) :
  (forall a b, keeps (block a b)) -> keeps (with_save L image block).
Proof.
  intros Hb st. unfold with_save.
  pose proof (keeps_NamedTemporaryFile st) as Hn.
  destruct (Fs.NamedTemporaryFile st) as [[f|e] st1]; cbn in *; [|exact Hn].
  rewrite <- Hn.
  apply (keeps_try_finally (save_body L image f block) (cleanup L f)).
  - apply keeps_save_body, Hb.
  - apply keeps_cleanup.
Qed.

End Frame.


(** ** Patterns *)

Lemma tokens_literal (lit : pystr) :
  forall n, Glob.has_magic lit = false -> (length lit < n)%nat ->
    Glob.tokens n (lit ++ [42]) = map Glob.Lit lit ++ [Glob.Star].
Proof.
  induction lit as [|c lit IH]; intros n Hm Hn.
  - destruct n as [|n]; [cbn in Hn; lia|]. destruct n; reflexivity.
  - destruct n as [|n]; [cbn in Hn; lia|].
    cbn in Hm. apply orb_false_iff in Hm as [Hc Hm].
    unfold Glob.magic in Hc.
    apply orb_false_iff in Hc as [Hc H91].
    apply orb_false_iff in Hc as [H42 H63].
    cbn [app Glob.tokens map]. rewrite H42, H63, H91.
    rewrite IH; [reflexivity|exact Hm|cbn in Hn; lia].
Qed.

Lemma compile_literal_star (lit : pystr) :
  Glob.has_magic lit = false ->
  Glob.compile (lit ++ str "*") = map Glob.Lit lit ++ [Glob.Star].
Proof.
  intros Hm. unfold Glob.compile. apply tokens_literal; [exact Hm|].
  rewrite length_app. cbn. lia.
Qed.

Lemma match_star_end (p : pystr) :
  Glob.match_toks [Glob.Star] p = true <-> Forall (fun c => c <> 47) p.
Proof.
  induction p as [|x p IH].
  - split; [constructor|reflexivity].
  - cbn [Glob.match_toks] in *. cbn [orb].
    unfold Glob.in_component at 1.
    split.
    + intros H. apply andb_true_iff in H as [Hx Hp].
      constructor.
      * intros ->. discriminate Hx.
      * apply IH. exact Hp.
    + intros H. inversion H as [|? ? Hx Hp]; subst.
      apply andb_true_iff. split.
      * apply negb_true_iff, Z.eqb_neq, Hx.
      * apply IH, Hp.
Qed.

Lemma match_literal_star (lit p : pystr) :
  Glob.match_toks (map Glob.Lit lit ++ [Glob.Star]) p = true
  <-> in_temp_set lit p.
Proof.
  revert p. induction lit as [|c lit IH]; intros p.
  - cbn [map app]. rewrite match_star_end. unfold in_temp_set. split.
    + intros H. exists p. split; [reflexivity|exact H].
    + intros [tail [-> H]]. exact H.
  - cbn [map app Glob.match_toks]. destruct p as [|x p].
    + split; [discriminate|]. intros [tail [H _]]. discriminate H.
    + rewrite andb_true_iff, IH, Z.eqb_eq. unfold in_temp_set. split.
      * intros [-> [tail [-> H]]]. exists tail. split; [reflexivity|exact H].
      * intros [tail [Heq H]]. cbn in Heq. injection Heq as -> ->.
        split; [reflexivity|]. exists tail. split; [reflexivity|exact H].
Qed.

(** With a base name free of pattern characters, the pattern of [cleanup]
    matches exactly the files of the request. *)
Lemma matches_temp_set (base p : pystr) :
  Glob.has_magic base = false ->
  Glob.matches (base ++ str "*") p = true <-> in_temp_set base p.
Proof.
  intros Hm. unfold Glob.matches. rewrite compile_literal_star by exact Hm.
  apply match_literal_star.
Qed.

Lemma iglob_spec (pat : pystr) (st : state) :
  snd (Fs.iglob pat st) = st
  /\ exists names, fst (Fs.iglob pat st) = Ok names
     /\ forall p, In p names <->
          pat <> [] /\ Glob.matches pat p = true /\ is_Some (files st !! p).
Proof.
  split; [reflexivity|]. unfold Fs.iglob. cbn [fst].
  destruct pat as [|c pat].
  - exists []. split; [reflexivity|]. intros p. split; [intros []|].
    intros [H _]. congruence.
  - eexists. split; [reflexivity|]. intros p.
    rewrite filter_In, in_map_iff. split.
    + intros [[[q d] [Hq Hin]] Hmatch]. cbn in Hq. subst q.
      split; [discriminate|]. split; [exact Hmatch|].
      apply list_elem_of_In, elem_of_map_to_list in Hin. eauto.
    + intros [_ [Hmatch [d Hd]]]. split; [|exact Hmatch].
      exists (p, d). split; [reflexivity|].
      apply list_elem_of_In, elem_of_map_to_list. exact Hd.
Qed.

(** ** Cleanup *)

Lemma guarded_remove_cases (L : lib) (p : pystr) (st : state) :
  guarded_remove L p st =
  match files st !! p with
  | None => (Ok tt, st)
  | Some _ =>
      match os_remove_errno L p with
      | None => (Ok tt, set_files (delete p (files st)) st)
      | Some e => if e =? ENOENT then (Ok tt, st) else (Err (OSError e p), st)
      end
  end.
Proof.
  unfold guarded_remove, except_OSError, Fs.remove.
  destruct (files st !! p); [|reflexivity].
  destruct (os_remove_errno L p) as [e|]; [|reflexivity].
  destruct (e =? ENOENT); reflexivity.
Qed.

Lemma cleanup_each_cons (L : lib) (p : pystr) (names : list pystr)
    (st : state) :
  cleanup_each L (p :: names) st =
  match guarded_remove L p st with
  | (Ok _, st') => cleanup_each L names st'
  | (Err e, st') => (Err e, st')
  end.
Proof. reflexivity. Qed.

(** When the OS refuses none of the deletions, the loop ends normally, all
    the names are gone and nothing else has changed. *)
Lemma cleanup_each_deletes (L : lib) (names : list pystr) :
  forall st,
    (forall p, In p names -> os_remove_errno L p = None) ->
    exists st',
      cleanup_each L names st = (Ok tt, st')
      /\ (forall p, In p names -> files st' !! p = None)
      /\ (forall p, ~ In p names -> files st' !! p = files st !! p)
      /\ (forall p, files st !! p = None -> files st' !! p = None).
Proof.
  induction names as [|q names IH]; intros st Hdel.
  - exists st. cbn. repeat split; auto. intros p [].
  - rewrite cleanup_each_cons, guarded_remove_cases.
    assert (Hq : os_remove_errno L q = None) by (apply Hdel; left; reflexivity).
    assert (Hrest : forall p, In p names -> os_remove_errno L p = None)
      by (intros p Hp; apply Hdel; right; exact Hp).
    rewrite Hq.
    destruct (files st !! q) as [d|] eqn:Hlook.
    + destruct (IH (set_files (delete q (files st)) st) Hrest)
        as [st' [Hrun [Hgone [Hkeep Hnone]]]].
      exists st'. split; [exact Hrun|]. cbn [files set_files] in *.
      split; [|split].
      * intros p [->|Hp]; [|apply Hgone, Hp].
        apply Hnone, lookup_delete_eq.
      * intros p Hp.
        destruct (decide (p = q)) as [->|Hne]; [exfalso; apply Hp; left; reflexivity|].
        assert (Hnin : ~ In p names) by (intros H; apply Hp; right; exact H).
        rewrite Hkeep by exact Hnin. apply lookup_delete_ne. congruence.
      * intros p Hp. apply Hnone.
        destruct (decide (q = p)) as [->|Hne]; [apply lookup_delete_eq|].
        rewrite lookup_delete_ne by exact Hne. exact Hp.
    + destruct (IH st Hrest) as [st' [Hrun [Hgone [Hkeep Hnone]]]].
      exists st'. split; [exact Hrun|]. split; [|split].
      * intros p [->|Hp]; [|apply Hgone, Hp]. apply Hnone, Hlook.
      * intros p Hp. apply Hkeep. intros Hin. apply Hp. right. exact Hin.
      * exact Hnone.
Qed.

(** [cleanup] on a base name free of pattern characters, when the OS
    refuses none of the deletions: it ends normally and no file of the
    request is left. *)
Lemma cleanup_clears (L : lib) (base : pystr) (st : state) :
  base <> [] ->
  Glob.has_magic base = false ->
  (forall p, in_temp_set base p -> os_remove_errno L p = None) ->
  exists st',
    cleanup L base st = (Ok tt, st')
    /\ forall p, in_temp_set base p -> files st' !! p = None.
Proof.
  intros Hne Hm Hdel. unfold cleanup, bind.
  destruct (iglob_spec (match base with [] => base | _ => base ++ str "*" end) st)
    as [Hst [names [Hnames Hin]]].
  destruct (Fs.iglob _ st) as [r st0]. cbn in Hst, Hnames. subst r st0.
  assert (Hpat : match base with [] => base | _ => base ++ str "*" end
                 = base ++ str "*") by (destruct base; congruence).
  rewrite Hpat in Hin.
  destruct (cleanup_each_deletes L names st) as [st' [Hrun [Hgone [_ Hnone]]]].
  { intros p Hp. apply Hdel. apply Hin in Hp as [_ [Hmatch _]].
    apply matches_temp_set in Hmatch; assumption. }
  exists st'. split; [exact Hrun|].
  intros p Hp. destruct (files st !! p) as [d|] eqn:Hlook.
  - apply Hgone, Hin. split; [destruct base; [congruence|discriminate]|].
    split; [apply matches_temp_set; assumption|]. rewrite Hlook. eauto.
  - apply Hnone, Hlook.
Qed.


(** ** The scope of the temporary file *)

Lemma first_free_name (dir : pystr) (cands : list pystr)
    (fs : gmap pystr pybytes) (name : pystr) (rest : list pystr) :
  Fs.first_free dir cands fs = Some (name, rest) ->
  fs !! name = None
  /\ exists c, In c cands /\ name = dir ++ sep ++ str "tess_" ++ c.
Proof.
  induction cands as [|c cands IH]; cbn [Fs.first_free]; [discriminate|].
  destruct (fs !! (dir ++ sep ++ str "tess_" ++ c)) eqn:Hlook.
  - intros H. destruct (IH H) as [Hfree [c' [Hin Hname]]].
    split; [exact Hfree|]. exists c'. split; [right; exact Hin|exact Hname].
  - intros H. injection H as <- <-. split; [exact Hlook|].
    exists c. split; [left; reflexivity|reflexivity].
Qed.

Lemma NamedTemporaryFile_name (st st1 : state) (base : pystr) :
  Fs.NamedTemporaryFile st = (Ok base, st1) ->
  base <> [] /\ files st !! base = None.
Proof.
  unfold Fs.NamedTemporaryFile.
  destruct (Fs.first_free _ _ _) as [[name rest]|] eqn:Hff; [|discriminate].
  intros H. injection H as <- _.
  apply first_free_name in Hff as [Hfree [c [_ ->]]].
  split; [|exact Hfree].
  intros Hnil. apply (f_equal (@length Z)) in Hnil.
  rewrite !length_app in Hnil. cbn in Hnil. lia.
Qed.

Lemma with_save_cases {A} (L : lib) (image : pyval)
    (block : pystr -> pystr -> M A) (st : state) :
  with_save L image block st =
  match Fs.NamedTemporaryFile st with
  | (Ok f, st1) =>
      match save_body L image f block st1 with
      | (r, st2) =>
          match cleanup L f st2 with
          | (Ok _, st3) => (r, st3)
          | (Err e, st3) => (Err e, st3)
          end
      end
  | (Err _, st1) => (Err (UnboundLocalError (str "f")), st1)
  end.
Proof. reflexivity. Qed.

(** The block of the caller runs after the input has been persisted, in
    the state this left. *)
Lemma save_body_bind {A} (L : lib) (image : pyval) (f : pystr)
    (block : pystr -> pystr -> M A) (st : state) :
  save_body L image f block st =
  match save_body L image f (fun _ inp => ret inp) st with
  | (Ok inp, st') => block f inp st'
  | (Err e, st') => (Err e, st')
  end.
Proof.
  unfold save_body. destruct image as [s|r|]; try reflexivity.
  unfold bind. destruct (prepare L (VImage r) st) as [[ie|e] st1]; [|reflexivity].
  destruct (image_save L ie.1 _ st1) as [[u|e] st2]; reflexivity.
Qed.

(** ** Cleanup at the end of a request *)

(** A request in a directory where nothing may be deleted: the engine
    succeeds, the deletion is refused with EACCES (13), and the temporary
    file, the input file and the output file all stay on disk. *)
Lemma request_leaves_files_when_deletion_refused :
  Fs.NamedTemporaryFile Bench.st0
  = (Ok Bench.base, snd (Fs.NamedTemporaryFile Bench.st0))
  /\ fst (run_and_get_output
            (Bench.mk (Bench.engine 0 (bytes_of "hello world") [])
               (fun _ => Some 13))
            (VImage 0) (str "txt") (Some (str "eng")) Bench.st0)
     = Err (OSError 13 (Bench.base ++ str ".txt"))
  /\ in_temp_set Bench.base (Bench.base ++ str ".PNG")
  /\ files (snd (run_and_get_output
                   (Bench.mk (Bench.engine 0 (bytes_of "hello world") [])
                      (fun _ => Some 13))
                   (VImage 0) (str "txt") (Some (str "eng")) Bench.st0))
       !! (Bench.base ++ str ".PNG")
     = Some (bytes_of "encoded").
Proof.
  split; [reflexivity|]. split; [vm_compute; reflexivity|]. split.
  - exists (str ".PNG"). split; [reflexivity|].
    repeat constructor; discriminate.
  - vm_compute. reflexivity.
Qed.

(** C2, amended: for a request whose temporary file was created under a
    base name free of pattern characters, whether it returns or raises at
    any stage: if the OS refuses the deletion of none of the files whose
    name begins with the base name, none of them is on disk when the request
    ends.  In the loop of [cleanup] a deletion that fails because the file
    does not exist is passed over, and a deletion refused with any other
    error number ends the loop with that OS error, which is then the outcome
    of the request. *)
Theorem request_cleanup (L : lib) (image : pyval) (ext : pystr)
    (lang : option pystr) (st st1 : state) (base : pystr)
    (Htmp : Fs.NamedTemporaryFile st = (Ok base, st1))
    (Hplain : Glob.has_magic base = false) :
  ((forall p, in_temp_set base p -> os_remove_errno L p = None) ->
   forall p, in_temp_set base p ->
     files (snd (run_and_get_output L image ext lang st)) !! p = None)
  /\ (forall names p s,
        files s !! p = None ->
        cleanup_each L (p :: names) s = cleanup_each L names s)
  /\ (forall names p s e,
        is_Some (files s !! p) -> os_remove_errno L p = Some e ->
        e <> ENOENT ->
        cleanup_each L (p :: names) s = (Err (OSError e p), s))
  /\ (forall r st2 e st3,
        save_body L image base (output_block L ext lang) st1 = (r, st2) ->
        cleanup L base st2 = (Err e, st3) ->
        run_and_get_output L image ext lang st = (Err e, st3)).
Proof.
  split; [|split; [|split]].
  - intros Hdel p Hp. unfold run_and_get_output.
    rewrite with_save_cases, Htmp.
    destruct (save_body L image base _ st1) as [r st2].
    destruct (cleanup_clears L base st2) as [st3 [Hrun Hgone]];
      [apply (NamedTemporaryFile_name _ _ _ Htmp)|exact Hplain|exact Hdel|].
    rewrite Hrun. cbn [snd]. apply Hgone, Hp.
  - intros names p s Hlook.
    rewrite cleanup_each_cons, guarded_remove_cases, Hlook. reflexivity.
  - intros names p s e [d Hd] He Hne.
    rewrite cleanup_each_cons, guarded_remove_cases, Hd, He.
    apply Z.eqb_neq in Hne. rewrite Hne. reflexivity.
  - intros r st2 e st3 Hbody Hclean. unfold run_and_get_output.
    rewrite with_save_cases, Htmp, Hbody, Hclean. reflexivity.
Qed.

Lemma request_cleanup_witness :
  files (snd (run_and_get_output
                (Bench.mk (Bench.engine 0 (bytes_of "hello world") [])
                   (fun _ => None))
                (VImage 0) (str "txt") (Some (str "eng")) Bench.st0))
    !! (Bench.base ++ str ".txt")
  = None.
Proof.
  refine (proj1 (request_cleanup
                   (Bench.mk (Bench.engine 0 (bytes_of "hello world") [])
                      (fun _ => None))
                   (VImage 0) (str "txt") (Some (str "eng")) Bench.st0
                   (snd (Fs.NamedTemporaryFile Bench.st0)) Bench.base
                   eq_refl eq_refl)
            (fun _ _ => eq_refl) (Bench.base ++ str ".txt") _).
  exists (str ".txt"). split; [reflexivity|].
  repeat constructor; discriminate.
Defined.


(** ** The result reader *)

Section Request.

(** One request in which the temporary file was created, the input was
    persisted, the engine was launched and exited with status 0, and the OS
    refuses none of the deletions of [cleanup]. *)
Variables (L : lib) (image : pyval) (extension : pystr)
  (lang : option pystr) (st st1 st2 : state) (base inp : pystr)
  (err : pybytes) (fs3 : gmap pystr pybytes).
Hypothesis Htmp : Fs.NamedTemporaryFile st = (Ok base, st1).
Hypothesis Hinput :
  save_body L image base (fun _ i => ret i) st1 = (Ok inp, st2).
Hypothesis Hengine :
  os_popen L (cli_contract inp base lang extension) (files st2)
  = Exited 0 err fs3.
Hypothesis Hdel :
  forall p, Glob.matches (base ++ str "*") p = true ->
            os_remove_errno L p = None.




End Request.






(** ** The image normalizer *)

Lemma blend8_white_table :
  forallb (fun a =>
             forallb (fun c => Img.blend8 (Z.of_nat a) 255 (Z.of_nat c)
                               =? over_white (Z.of_nat c) (Z.of_nat a))
               (seq 0 256))
    (seq 0 256) = true.
Proof. vm_compute. reflexivity. Qed.

(** The byte arithmetic of the paste computes the rounded compositing over
    white. *)
Lemma blend8_over_white (a c : Z) :
  sample a -> sample c -> Img.blend8 a 255 c = over_white c a.
Proof.
  intros Ha Hc. pose proof blend8_white_table as H.
  rewrite forallb_forall in H.
  specialize (H (Z.to_nat a)). rewrite forallb_forall in H.
  specialize (H ltac:(apply in_seq; unfold sample in *; lia) (Z.to_nat c)
                ltac:(apply in_seq; unfold sample in *; lia)).
  unfold sample in *. rewrite !Z2Nat.id in H by lia.
  apply Z.eqb_eq, H.
Qed.

Lemma over_white_opaque (c : Z) : over_white c 255 = c.
Proof.
  unfold over_white. replace (2 * (c * 255 + 255 * (255 - 255)) + 255)
    with (c * 510 + 255) by lia.
  rewrite Z.div_add_l by lia. change (255 / 510) with 0. lia.
Qed.

Lemma over_white_transparent (c : Z) : over_white c 0 = 255.
Proof. unfold over_white. rewrite Z.mul_0_r. reflexivity. Qed.

Lemma over_white_sample (c a : Z) :
  sample c -> sample a -> sample (over_white c a).
Proof.
  unfold sample, over_white. intros Hc Ha.
  assert (0 <= c * a <= 255 * a) by nia.
  split.
  - apply Z.div_pos; lia.
  - enough (H' : (2 * (c * a + 255 * (255 - a)) + 255) / 510 < 256) by lia.
    apply Z.div_lt_upper_bound; lia.
Qed.

Lemma blend_plane_white (alpha : list Z) :
  forall (n : nat) (src : list Z),
    (length alpha <= n)%nat -> Forall sample alpha -> Forall sample src ->
    Img.blend_plane alpha (replicate n 255) src = zip_with over_white src alpha.
Proof.
  unfold Img.blend_plane.
  induction alpha as [|a alpha IH]; intros n src Hn Ha Hs.
  - destruct src; reflexivity.
  - destruct n as [|n]; [cbn in Hn; lia|].
    destruct src as [|c src]; [reflexivity|].
    inversion Ha; subst. inversion Hs; subst. cbn [replicate zip zip_with fst snd].
    rewrite blend8_over_white by assumption. f_equal.
    apply IH; [cbn in Hn; lia|assumption|assumption].
Qed.

Lemma index_of_bound (name : pystr) (bands : list pystr) (k : nat) :
  Img.index_of name bands = Some k -> (k < length bands)%nat.
Proof.
  revert k. induction bands as [|b bands IH]; intros k; cbn; [discriminate|].
  destruct (bool_decide (b = name)).
  - intros H. injection H as <-. lia.
  - destruct (Img.index_of name bands) as [j|]; [|discriminate].
    intros H. injection H as <-. specialize (IH j eq_refl). lia.
Qed.

Lemma index_of_elem (name : pystr) (bands : list pystr) :
  name ∈ bands -> is_Some (Img.index_of name bands).
Proof.
  induction bands as [|b bands IH]; intros Hin.
  - inversion Hin.
  - cbn. destruct (bool_decide (b = name)) eqn:Hb; [eauto|].
    apply bool_decide_eq_false in Hb.
    inversion Hin; subst; [congruence|].
    destruct (IH ltac:(assumption)) as [k ->]. cbn. eauto.
Qed.

(** The band [A] of a well-formed image that has one. *)
Lemma getchannel_alpha (im : image) :
  wf_image im -> Img.has_band (str "A") im = true ->
  exists alpha,
    Img.getchannel (str "A") im = Ok alpha
    /\ length alpha = Img.npixels im /\ Forall sample alpha.
Proof.
  intros [Hlen Hplanes] Hband. unfold Img.has_band in Hband.
  apply bool_decide_eq_true in Hband.
  destruct (index_of_elem _ _ Hband) as [k Hk].
  unfold Img.getchannel. rewrite Hk.
  pose proof (index_of_bound _ _ _ Hk) as Hlt. rewrite <- Hlen in Hlt.
  destruct (lookup_lt_is_Some_2 _ _ Hlt) as [pl Hpl].
  exists pl. unfold Img.plane. rewrite Hpl. split; [reflexivity|].
  rewrite Forall_forall in Hplanes. apply Hplanes.
  apply list_elem_of_lookup. eauto.
Qed.



Lemma insert_last {A} (l : list A) (x y : A) :
  <[length l := x]> (l ++ [y]) = l ++ [x].
Proof. induction l as [|a l IH]; cbn; [reflexivity|]. f_equal. exact IH. Qed.

(** [prepare] on an image with a band named [A]: a white canvas is
    allocated, the image is pasted on it through its band [A], and the
    canvas gets the format tag. *)
Lemma prepare_alpha_run (L : lib) (r : nat) (im : image) (st : state)
    (R G B alpha : list Z)
    (Href : heap st !! r = Some im)
    (Hbands : Img.has_band (str "A") im = true)
    (Hch : Img.getchannel (str "A") im = Ok alpha)
    (Hrgb : Img.rgb_source L im = Ok (R, G, B)) :
  prepare L (VImage r) st
  = (Ok (length (heap st), format_tag im),
     set_heap (heap st ++
                 [Image (Some (format_tag im)) MRGB (im_size im)
                    [Img.blend_plane alpha (replicate (Img.npixels im) 255) R;
                     Img.blend_plane alpha (replicate (Img.npixels im) 255) G;
                     Img.blend_plane alpha (replicate (Img.npixels im) 255) B]])
       st).
Proof.
  unfold prepare, bind, Img.deref. rewrite Href, Hbands.
  unfold Img.new, Img.alloc, lift. rewrite Hch.
  unfold Img.paste, bind, Img.deref, lift. cbn [heap set_heap].
  rewrite list_lookup_middle by reflexivity. rewrite Hrgb.
  unfold Img.update, modify, ret, Img.plane.
  cbn [heap set_heap fst snd im_format im_mode im_size im_planes map lookup
         list_lookup default].
  rewrite insert_last.
  unfold Img.set_format, bind, Img.deref, Img.update, modify.
  cbn [heap set_heap].
  rewrite list_lookup_middle by reflexivity.
  cbn [heap set_heap fst snd im_format im_mode im_size im_planes].
  rewrite insert_last. reflexivity.
Qed.

(** The paste reads an RGBA or LA source as it is: its colour planes are
    planes of the image. *)
Lemma rgb_source_direct (L : lib) (im : image) :
  wf_image im -> im_mode im = MRGBA \/ im_mode im = MLA ->
  exists R G B,
    Img.rgb_source L im = Ok (R, G, B)
    /\ Forall sample R /\ Forall sample G /\ Forall sample B.
Proof.
  intros [Hlen Hplanes] Hmode.
  assert (Hplane : forall k, Forall sample (Img.plane k im)).
  { intros k. unfold Img.plane.
    destruct (im_planes im !! k) as [pl|] eqn:Hk; cbn; [|constructor].
    rewrite Forall_forall in Hplanes.
    apply (Hplanes pl). apply list_elem_of_lookup. eauto. }
  unfold Img.rgb_source.
  destruct Hmode as [-> | ->]; do 3 eexists; (split; [reflexivity|]); auto.
Qed.

(** C7: for a well-formed image with a band named [A] whose colour planes
    the paste can read, [prepare] returns a new image object: it has the
    mode RGB and so no band [A], the size of the original, and in each
    colour plane the original's samples composited with the band [A] as
    opacity over white.  No object that existed before is changed, the
    original among them. *)
Theorem prepare_with_alpha (L : lib) (r : nat) (im : image) (st : state)
    (R G B : list Z)
    (Href : heap st !! r = Some im)
    (Hbands : Img.has_band (str "A") im = true)
    (Hwf : wf_image im)
    (Hrgb : Img.rgb_source L im = Ok (R, G, B))
    (Hsamples : Forall sample R /\ Forall sample G /\ Forall sample B) :
  exists alpha out,
    Img.getchannel (str "A") im = Ok alpha
    /\ fst (prepare L (VImage r) st) = Ok (length (heap st), format_tag im)
    /\ length (heap st) <> r
    /\ heap st !! length (heap st) = None
    /\ heap (snd (prepare L (VImage r) st)) !! length (heap st) = Some out
    /\ im_mode out = MRGB
    /\ Img.has_band (str "A") out = false
    /\ im_size out = im_size im
    /\ im_planes out = [zip_with over_white R alpha;
                        zip_with over_white G alpha;
                        zip_with over_white B alpha]
    /\ heap (snd (prepare L (VImage r) st)) !! r = Some im
    /\ (forall r', (r' < length (heap st))%nat ->
          heap (snd (prepare L (VImage r) st)) !! r' = heap st !! r').
Proof.
  destruct (getchannel_alpha im Hwf Hbands) as [alpha [Hch [Hlen Halpha]]].
  destruct Hsamples as [HR [HG HB]].
  pose proof (lookup_lt_Some _ _ _ Href) as Hlt.
  exists alpha. eexists. split; [exact Hch|].
  rewrite (prepare_alpha_run L r im st R G B alpha Href Hbands Hch Hrgb).
  cbn [fst snd heap set_heap].
  split; [reflexivity|]. split; [lia|].
  split; [apply lookup_ge_None; lia|].
  split; [apply list_lookup_middle; reflexivity|].
  cbn [im_mode im_size im_planes].
  split; [reflexivity|]. split; [reflexivity|]. split; [reflexivity|].
  split.
  - rewrite !blend_plane_white by (try assumption; lia). reflexivity.
  - split.
    + rewrite lookup_app_l by exact Hlt. exact Href.
    + intros r' Hr'. apply lookup_app_l. exact Hr'.
Qed.

Lemma prepare_with_alpha_witness :
  fst (prepare (Bench.mk Bench.silent_engine (fun _ => None)) (VImage 1)
         Bench.st0)
  = Ok (2%nat, str "PNG")
  /\ exists out,
       heap (snd (prepare (Bench.mk Bench.silent_engine (fun _ => None))
                    (VImage 1) Bench.st0)) !! 2%nat = Some out
       /\ im_planes out = [[10; 255]; [20; 255]; [30; 255]]
       /\ heap (snd (prepare (Bench.mk Bench.silent_engine (fun _ => None))
                       (VImage 1) Bench.st0)) !! 1%nat = Some Bench.rgba.
Proof.
  assert (Hwf : wf_image Bench.rgba).
  { split; [reflexivity|]. unfold sample.
    repeat (constructor; [split; [reflexivity|repeat (constructor; [lia|])]|]);
      constructor. }
  assert (Hs : Forall sample [10; 200] /\ Forall sample [20; 100]
               /\ Forall sample [30; 0]).
  { unfold sample. repeat split; repeat (constructor; [lia|]); constructor. }
  destruct (prepare_with_alpha (Bench.mk Bench.silent_engine (fun _ => None))
              1 Bench.rgba Bench.st0 [10; 200] [20; 100] [30; 0]
              eq_refl eq_refl Hwf eq_refl Hs)
    as [alpha [out [Hch [Hret [_ [_ [Hout [_ [_ [_ [Hpl [Horig _]]]]]]]]]]]].
  injection Hch as <-.
  split; [exact Hret|]. exists out.
  split; [exact Hout|]. split; [exact Hpl|exact Horig].
Defined.

(** ** The file-path check of the GUI *)

Lemma in_plus_rests (a : Re.atom) (s x : pystr) :
  In x (Re.plus_rests a s) <->
  exists pre, pre <> [] /\ s = pre ++ x
              /\ Forall (fun c => Re.atom_matches a c = true) pre.
Proof.
  revert x. induction s as [|c s IH]; intros x; cbn [Re.plus_rests].
  - split; [intros []|]. intros [pre [Hne [Heq _]]].
    destruct pre; [congruence|discriminate].
  - destruct (Re.atom_matches a c) eqn:Hc.
    + cbn [In]. rewrite IH. split.
      * intros [<-|[pre [Hne [-> Hall]]]].
        -- exists [c]. split; [discriminate|]. split; [reflexivity|].
           repeat constructor. exact Hc.
        -- exists (c :: pre). split; [discriminate|]. split; [reflexivity|].
           constructor; assumption.
      * intros [pre [Hne [Heq Hall]]].
        destruct pre as [|c' pre]; [congruence|].
        cbn in Heq. injection Heq as <- ->. inversion Hall; subst.
        destruct pre as [|c'' pre]; [left; reflexivity|].
        right. exists (c'' :: pre). split; [discriminate|].
        split; [reflexivity|assumption].
    + split; [intros []|]. intros [pre [Hne [Heq Hall]]].
      destruct pre as [|c' pre]; [congruence|].
      cbn in Heq. injection Heq as <- ->. inversion Hall; subst. congruence.
Qed.

Lemma in_rests_atom (a : Re.atom) (s x : pystr) :
  In x (Re.rests (Re.Atom a) s) <->
  exists c, s = c :: x /\ Re.atom_matches a c = true.
Proof.
  cbn [Re.rests]. destruct s as [|c s].
  - split; [intros []|]. intros [c [H _]]. discriminate H.
  - destruct (Re.atom_matches a c) eqn:Hc.
    + split.
      * intros [<-|[]]. exists c. split; [reflexivity|exact Hc].
      * intros [c' [Heq _]]. injection Heq as <- <-. left. reflexivity.
    + split; [intros []|]. intros [c' [Heq Hc']].
      injection Heq as <- <-. congruence.
Qed.

Lemma in_rests_word (w s x : pystr) :
  In x (Re.rests (Re.word w) s) <-> s = w ++ x.
Proof.
  revert s. induction w as [|c w IH]; intros s.
  - cbn. split; [intros [<-|[]]; reflexivity|intros ->; left; reflexivity].
  - cbn [Re.word]. change (Re.rests (Re.Seq ?a ?b) s)
      with (flat_map (Re.rests b) (Re.rests a s)).
    rewrite in_flat_map. split.
    + intros [y [Hy Hx]]. apply in_rests_atom in Hy as [c' [-> Hc]].
      apply IH in Hx as ->. cbn in Hc. apply Z.eqb_eq in Hc as ->. reflexivity.
    + intros ->. exists (w ++ x). split.
      * apply in_rests_atom. exists c. split; [reflexivity|].
        cbn. apply Z.eqb_refl.
      * apply IH. reflexivity.
Qed.

Lemma in_rests_end (s x : pystr) :
  In x (Re.rests Re.EndOfString s) <-> x = s /\ (s = [] \/ s = [10]).
Proof.
  cbn [Re.rests]. destruct s as [|c [|d s]]; cbn [Re.at_end].
  - split; [intros [<-|[]]; auto|]. intros [-> _]. left. reflexivity.
  - destruct (c =? 10) eqn:Hc.
    + apply Z.eqb_eq in Hc as ->.
      split; [intros [<-|[]]; auto|]. intros [-> _]. left. reflexivity.
    + apply Z.eqb_neq in Hc.
      split; [intros []|]. intros [_ [H|H]]; [discriminate H|congruence].
  - split; [intros []|]. intros [_ [H|H]]; discriminate H.
Qed.

Lemma re_match_true (r : Re.regex) (s : pystr) :
  Re.re_match r s = true <-> exists x, In x (Re.rests r s).
Proof.
  unfold Re.re_match. destruct (Re.rests r s) as [|y l].
  - split; [discriminate|]. intros [x []].
  - split; [|reflexivity]. intros _. exists y. left. reflexivity.
Qed.

(** The shape of the paths [image_regex] matches. *)
Lemma image_regex_shape (path : pystr) :
  Re.re_match image_regex path = true <->
  exists stem c ext tail,
    path = stem ++ c :: ext ++ tail
    /\ stem <> []
    /\ Forall (fun x => Text.isspace x = false) stem
    /\ c <> 10
    /\ (ext = str "png" \/ ext = str "jpg" \/ ext = str "jpeg")
    /\ (tail = [] \/ tail = [10]).
Proof.
  rewrite re_match_true. unfold image_regex. split.
  - intros [x Hx].
    change (Re.rests (Re.Seq ?a ?b) path)
      with (flat_map (Re.rests b) (Re.rests a path)) in Hx.
    apply in_flat_map in Hx as [s1 [H1 Hx]].
    apply in_plus_rests in H1 as [stem [Hne [-> Hstem]]].
    change (Re.rests (Re.Seq ?a ?b) s1)
      with (flat_map (Re.rests b) (Re.rests a s1)) in Hx.
    apply in_flat_map in Hx as [s2 [H2 Hx]].
    apply in_rests_atom in H2 as [c [-> Hc]].
    change (Re.rests (Re.Seq ?a ?b) s2)
      with (flat_map (Re.rests b) (Re.rests a s2)) in Hx.
    apply in_flat_map in Hx as [s3 [H3 Hx]].
    apply in_rests_end in Hx as [-> Hend].
    assert (Hext : exists ext, s2 = ext ++ s3
              /\ (ext = str "png" \/ ext = str "jpg" \/ ext = str "jpeg")).
    { change (Re.rests (Re.Alt ?a (Re.Alt ?b ?d)) s2)
        with (Re.rests a s2 ++ Re.rests b s2 ++ Re.rests d s2) in H3.
      rewrite !in_app_iff, !in_rests_word in H3.
      destruct H3 as [->|[->| ->]]; eexists; (split; [reflexivity|]); auto. }
    destruct Hext as [ext [-> Hext]].
    exists stem, c, ext, s3. split; [reflexivity|]. split; [exact Hne|].
    split; [|split; [|split; [exact Hext|exact Hend]]].
    + eapply Forall_impl; [exact Hstem|]. cbn. intros y Hy.
      apply negb_true_iff, Hy.
    + intros ->. discriminate Hc.
  - intros [stem [c [ext [tail [-> [Hne [Hstem [Hc [Hext Htail]]]]]]]]].
    exists tail.
    change (Re.rests (Re.Seq ?a ?b) ?s)
      with (flat_map (Re.rests b) (Re.rests a s)).
    apply in_flat_map. exists (c :: ext ++ tail). split.
    { apply in_plus_rests. exists stem. split; [exact Hne|].
      split; [reflexivity|]. eapply Forall_impl; [exact Hstem|].
      cbn. intros y Hy. apply negb_true_iff, Hy. }
    change (Re.rests (Re.Seq ?a ?b) ?s)
      with (flat_map (Re.rests b) (Re.rests a s)).
    apply in_flat_map. exists (ext ++ tail). split.
    { apply in_rests_atom. exists c. split; [reflexivity|].
      cbn. apply negb_true_iff, Z.eqb_neq, Hc. }
    change (Re.rests (Re.Seq ?a ?b) ?s)
      with (flat_map (Re.rests b) (Re.rests a s)).
    apply in_flat_map. exists tail. split.
    { change (Re.rests (Re.Alt ?a (Re.Alt ?b ?d)) ?s)
        with (Re.rests a s ++ Re.rests b s ++ Re.rests d s).
      rewrite !in_app_iff, !in_rests_word.
      destruct Hext as [->|[->| ->]]; auto. }
    apply in_rests_end. split; [reflexivity|exact Htail].
Qed.

(** What [image_regex] accepts: one or more characters that are not
    white space, then any one character but a line feed, then [png], [jpg]
    or [jpeg] in lower case, up to the end of the string or to a line feed
    that ends it. *)
Lemma image_regex_accepts (path : pystr) :
  Re.re_match image_regex path = true <->
  exists stem c ext tail,
    path = stem ++ c :: ext ++ tail
    /\ stem <> []
    /\ Forall (fun x => Text.isspace x = false) stem
    /\ c <> 10
    /\ (ext = str "png" \/ ext = str "jpg" \/ ext = str "jpeg")
    /\ (tail = [] \/ tail = [10]).
Proof. exact (image_regex_shape path). Qed.

(** A path that ends in a dot and one of the three extensions is accepted
    exactly when what precedes the dot is not empty and holds no white
    space. *)
Lemma dotted_path_accepted (stem ext : pystr) :
  ext = str "png" \/ ext = str "jpg" \/ ext = str "jpeg" ->
  Re.re_match image_regex (stem ++ str "." ++ ext) = true
  <-> stem <> [] /\ Forall (fun x => Text.isspace x = false) stem.
Proof.
  intros Hext. rewrite image_regex_shape. split.
  - intros [stem' [c [ext' [tail [Heq [Hne [Hall [Hc [Hext' Htail]]]]]]]]].
    assert (Hstem : stem' = stem).
    { apply (f_equal (@rev Z)) in Heq. rewrite !rev_app_distr in Heq.
      destruct Hext as [->|[->| ->]], Hext' as [->|[->| ->]],
        Htail as [->| ->]; cbn in Heq; try discriminate Heq;
        injection Heq as _ Heq; apply (f_equal (@rev Z)) in Heq;
        rewrite !rev_involutive in Heq; congruence. }
    subst stem'. split; assumption.
  - intros [Hne Hall]. exists stem, 46, ext, [].
    rewrite app_nil_r. split; [reflexivity|]. split; [exact Hne|].
    split; [exact Hall|]. split; [discriminate|]. split; [exact Hext|].
    left. reflexivity.
Qed.

(** A path that does not end in [png], [jpg] or [jpeg], with or without
    one final line feed, is rejected. *)
Lemma other_ending_rejected (path : pystr) :
  (forall pre ext tail,
      ext = str "png" \/ ext = str "jpg" \/ ext = str "jpeg" ->
      tail = [] \/ tail = [10] ->
      path <> pre ++ ext ++ tail) ->
  Re.re_match image_regex path = false.
Proof.
  intros Hend. destruct (Re.re_match image_regex path) eqn:Hm; [|reflexivity].
  apply image_regex_shape in Hm
    as [stem [c [ext [tail [Heq [_ [_ [_ [Hext Htail]]]]]]]]].
  exfalso. apply (Hend (stem ++ [c]) ext tail Hext Htail).
  rewrite Heq, <- app_assoc. reflexivity.
Qed.

Example image_regex_examples :
  Re.re_match image_regex (str "notes.txt") = false
  /\ Re.re_match image_regex (str "/home/u/scan.png") = true
  /\ Re.re_match image_regex (str "photo.jpeg") = true
  /\ Re.re_match image_regex (str "photo.PNG") = false
  /\ Re.re_match image_regex (str "my scan.png") = false
  /\ Re.re_match image_regex (str "fooXpng") = true
  /\ Re.re_match image_regex (str ".png") = false.
Proof. repeat split. Qed.

(** ** The event loop *)

Lemma run_tesseract_keeps_pane (L : lib) (inp base ext : pystr)
    (lang : option pystr) :
  preserves pane (run_tesseract L inp base ext lang).
Proof.
  intros st. rewrite run_tesseract_cases. cbv zeta.
  destruct (os_popen L _ (files st)); reflexivity.
Qed.

Lemma output_block_keeps_pane (L : lib) (ext : pystr) (lang : option pystr)
    (temp_name input_filename : pystr) :
  preserves pane (output_block L ext lang temp_name input_filename).
Proof.
  unfold output_block.
  apply keeps_bind; [apply run_tesseract_keeps_pane|]. intros _.
  apply keeps_bind; [apply keeps_read|]. intros data.
  destruct (Text.utf8_decode data); [apply keeps_ret|apply keeps_raise].
Qed.

(** No stage of a request prints. *)
Lemma process_image_keeps_pane (L : lib) (image_name lang_code : pystr) :
  preserves pane (process_image L image_name lang_code).
Proof.
  unfold process_image, image_to_string, run_and_get_output.
  apply keeps_bind.
  - apply keeps_Image_open. reflexivity.
  - intros r. apply keeps_with_save; try reflexivity.
    intros a b. apply output_block_keeps_pane.
Qed.

Lemma submit_turn (L : lib) (path : pystr) (rus : bool) (st : state) :
  loop_turn L (Some (str "Submit")) (Some (path, rus)) st
  = if Re.re_match image_regex path then
      match process_image L path (if rus then str "rus" else str "eng") st
      with
      | (Ok data, st') => Continue (print data st')
      | (Err e, st') => Uncaught e st'
      end
    else Continue (print (str "File path is invalid") st).
Proof.
  unfold loop_turn.
  rewrite bool_decide_eq_false_2 by (intros [H|H]; discriminate H).
  rewrite bool_decide_eq_true_2 by reflexivity. reflexivity.
Qed.

(** A path with the extension [.png] and a space in its name: the turn
    prints [File path is invalid] and no recognition runs. *)
Lemma submit_rejects_path_with_space :
  str "my scan.png" = str "my scan" ++ str ".png"
  /\ loop_turn (Bench.mk (Bench.engine 0 (bytes_of "hello world") [])
                  (fun _ => None))
       (Some (str "Submit")) (Some (str "my scan.png", false))
       (State {[ str "my scan.png" := bytes_of "png data" ]} []
          (str "/tmp") [str "k3x9q_a1"] [] [])
     = Continue
         (State {[ str "my scan.png" := bytes_of "png data" ]} []
            (str "/tmp") [str "k3x9q_a1"] []
            [str "File path is invalid"]).
Proof. split; reflexivity. Qed.

(** C5, amended: on a Submit event, a path made of a non-empty stem
    without white space followed by [.png], [.jpg] or [.jpeg] in lower
    case is handed to the recognition; a path with such an extension whose
    stem is empty or holds white space is rejected, and so is every path
    that does not end in [png], [jpg] or [jpeg] (with or without one final
    line feed), [notes.txt] among them.  Every Submit turn either runs the
    recognition or prints [File path is invalid] and leaves the files, the
    image objects, the temporary names and the launched commands as they
    were. *)
Theorem submit_checks_file_path (L : lib) (rus : bool) (st : state) :
  (forall stem ext,
      ext = str "png" \/ ext = str "jpg" \/ ext = str "jpeg" ->
      stem <> [] -> Forall (fun x => Text.isspace x = false) stem ->
      loop_turn L (Some (str "Submit")) (Some (stem ++ str "." ++ ext, rus)) st
      = match process_image L (stem ++ str "." ++ ext)
                (if rus then str "rus" else str "eng") st
        with
        | (Ok data, st') => Continue (print data st')
        | (Err e, st') => Uncaught e st'
        end)
  /\ (forall stem ext,
        ext = str "png" \/ ext = str "jpg" \/ ext = str "jpeg" ->
        stem = [] \/ Exists (fun x => Text.isspace x = true) stem ->
        loop_turn L (Some (str "Submit"))
          (Some (stem ++ str "." ++ ext, rus)) st
        = Continue (State (files st) (heap st) (tmp_dir st) (tmp_names st)
                      (launched st)
                      (pane st ++ [str "File path is invalid"])))
  /\ (forall path,
        (forall pre ext tail,
            ext = str "png" \/ ext = str "jpg" \/ ext = str "jpeg" ->
            tail = [] \/ tail = [10] ->
            path <> pre ++ ext ++ tail) ->
        loop_turn L (Some (str "Submit")) (Some (path, rus)) st
        = Continue (State (files st) (heap st) (tmp_dir st) (tmp_names st)
                      (launched st)
                      (pane st ++ [str "File path is invalid"])))
  /\ loop_turn L (Some (str "Submit")) (Some (str "notes.txt", rus)) st
     = Continue (State (files st) (heap st) (tmp_dir st) (tmp_names st)
                   (launched st) (pane st ++ [str "File path is invalid"]))
  /\ (forall path,
        loop_turn L (Some (str "Submit")) (Some (path, rus)) st
        = match process_image L path (if rus then str "rus" else str "eng")
                  st
          with
          | (Ok data, st') => Continue (print data st')
          | (Err e, st') => Uncaught e st'
          end
        \/ loop_turn L (Some (str "Submit")) (Some (path, rus)) st
           = Continue (State (files st) (heap st) (tmp_dir st)
                         (tmp_names st) (launched st)
                         (pane st ++ [str "File path is invalid"]))).
Proof.
  split; [|split; [|split; [|split]]].
  - intros stem ext Hext Hne Hall. rewrite submit_turn.
    rewrite (proj2 (dotted_path_accepted stem ext Hext) (conj Hne Hall)).
    reflexivity.
  - intros stem ext Hext Hbad. rewrite submit_turn.
    destruct (Re.re_match image_regex (stem ++ str "." ++ ext)) eqn:Hm;
      [|reflexivity].
    exfalso. apply (dotted_path_accepted stem ext Hext) in Hm as [Hne Hall].
    destruct Hbad as [->|Hsp]; [congruence|].
    apply Exists_exists in Hsp as [x [Hx Hsp]].
    rewrite Forall_forall in Hall. rewrite (Hall x Hx) in Hsp.
    discriminate Hsp.
  - intros path Hend. rewrite submit_turn, (other_ending_rejected path Hend).
    reflexivity.
  - rewrite submit_turn. reflexivity.
  - intros path. rewrite submit_turn.
    destruct (Re.re_match image_regex path); [left|right]; reflexivity.
Qed.

(** A Submit on an existing picture when the engine is not installed: the
    turn ends in the uncaught error, nothing has been printed, and the
    next event is never read. *)
Lemma failed_request_stops_loop :
  loop_turn (Bench.mk Bench.missing_engine (fun _ => None))
    (Some (str "Submit")) (Some (str "/home/u/scan.png", true)) Bench.st0
  = Uncaught tesseract_not_found
      (snd (process_image (Bench.mk Bench.missing_engine (fun _ => None))
              (str "/home/u/scan.png") (str "rus") Bench.st0))
  /\ pane (snd (process_image (Bench.mk Bench.missing_engine (fun _ => None))
                  (str "/home/u/scan.png") (str "rus") Bench.st0)) = []
  /\ (forall st',
        loop_turn (Bench.mk Bench.missing_engine (fun _ => None))
          (Some (str "Submit")) (Some (str "/home/u/scan.png", true))
          Bench.st0
        <> Continue st')
  /\ event_loop (Bench.mk Bench.missing_engine (fun _ => None))
       [(Some (str "Submit"), Some (str "/home/u/scan.png", true));
        (Some (str "Submit"), Some (str "notes.txt", true))] Bench.st0
     = Uncaught tesseract_not_found
         (snd (process_image (Bench.mk Bench.missing_engine (fun _ => None))
                 (str "/home/u/scan.png") (str "rus") Bench.st0)).
Proof.
  assert (Hturn :
    loop_turn (Bench.mk Bench.missing_engine (fun _ => None))
      (Some (str "Submit")) (Some (str "/home/u/scan.png", true)) Bench.st0
    = Uncaught tesseract_not_found
        (snd (process_image (Bench.mk Bench.missing_engine (fun _ => None))
                (str "/home/u/scan.png") (str "rus") Bench.st0))).
  { vm_compute. reflexivity. }
  split; [exact Hturn|]. split; [vm_compute; reflexivity|]. split.
  - intros st' H. rewrite Hturn in H. discriminate H.
  - cbn [event_loop]. rewrite Hturn. reflexivity.
Qed.

(** C6, amended: when a stage of the recognition request of a Submit
    raises, the error leaves the event loop uncaught: nothing is printed
    for it and the loop reads no further event. *)
Theorem failed_request_is_uncaught (L : lib) (path : pystr) (rus : bool)
    (st st' : state) (e : exn)
    (Hpath : Re.re_match image_regex path = true)
    (Hfail : process_image L path (if rus then str "rus" else str "eng") st
             = (Err e, st')) :
  loop_turn L (Some (str "Submit")) (Some (path, rus)) st = Uncaught e st'
  /\ pane st' = pane st
  /\ forall later,
       event_loop L ((Some (str "Submit"), Some (path, rus)) :: later) st
       = Uncaught e st'.
Proof.
  assert (Hturn : loop_turn L (Some (str "Submit")) (Some (path, rus)) st
                  = Uncaught e st').
  { rewrite submit_turn, Hpath, Hfail. reflexivity. }
  split; [exact Hturn|]. split.
  - pose proof (process_image_keeps_pane L path
                  (if rus then str "rus" else str "eng") st) as H.
    rewrite Hfail in H. exact H.
  - intros later. cbn [event_loop]. rewrite Hturn. reflexivity.
Qed.

Lemma failed_request_is_uncaught_witness :
  loop_turn (Bench.mk Bench.missing_engine (fun _ => None))
    (Some (str "Submit")) (Some (str "/home/u/scan.png", true)) Bench.st0
  = Uncaught tesseract_not_found
      (snd (process_image (Bench.mk Bench.missing_engine (fun _ => None))
              (str "/home/u/scan.png") (str "rus") Bench.st0)).
Proof.
  refine (proj1 (failed_request_is_uncaught
                   (Bench.mk Bench.missing_engine (fun _ => None))
                   (str "/home/u/scan.png") true Bench.st0 _ _ eq_refl _)).
  vm_compute. reflexivity.
Defined.

(** ** Why the base name must be free of pattern characters *)

(** In a temporary directory whose name holds a bracket expression the
    pattern of [cleanup] names another directory, and the files of the
    request are not among its results. *)
Example bracket_in_temp_dir :
  Glob.has_magic (str "/t[x]/tess_a") = true
  /\ Glob.matches (str "/t[x]/tess_a*") (str "/t[x]/tess_a.txt") = false
  /\ Glob.matches (str "/t[x]/tess_a*") (str "/tx/tess_a.txt") = true
  /\ Glob.matches (str "/tmp/tess_a*") (str "/tmp/tess_a.txt") = true
  /\ Glob.matches (str "/tmp/tess_a*") (str "/tmp/tess_a/x") = false.
Proof. repeat split. Qed.

(** * Further properties of the wrapper *)

(** ** The message of [get_errors] *)

Lemma lstrip_head (s : pystr) (c : Z) (r : pystr) :
  Text.lstrip s = c :: r -> Text.isspace c = false.
Proof.
  induction s as [|x s IH]; cbn [Text.lstrip]; [discriminate|].
  destruct (Text.isspace x) eqn:Hx; [exact IH|].
  intros H. injection H as <- _. exact Hx.
Qed.

Lemma lstrip_suffix (s : pystr) : exists pre, s = pre ++ Text.lstrip s.
Proof.
  induction s as [|x s [pre IH]]; cbn [Text.lstrip]; [exists []; reflexivity|].
  destruct (Text.isspace x).
  - exists (x :: pre). cbn. f_equal. exact IH.
  - exists []. reflexivity.
Qed.

Lemma lstrip_Forall (P : Z -> Prop) (s : pystr) :
  Forall P s -> Forall P (Text.lstrip s).
Proof.
  intros H. destruct (lstrip_suffix s) as [pre Hs].
  rewrite Hs in H. apply Forall_app in H as [_ H]. exact H.
Qed.

Lemma strip_Forall (P : Z -> Prop) (s : pystr) :
  Forall P s -> Forall P (Text.strip s).
Proof.
  intros H. unfold Text.strip.
  apply Forall_rev, lstrip_Forall, Forall_rev, lstrip_Forall, H.
Qed.

(** [strip] leaves white space at neither end. *)
Lemma strip_ends (s : pystr) :
  (forall c r, Text.strip s = c :: r -> Text.isspace c = false)
  /\ (forall c r, Text.strip s = r ++ [c] -> Text.isspace c = false).
Proof.
  unfold Text.strip. set (t := Text.lstrip s).
  destruct (lstrip_suffix (rev t)) as [pre Hpre].
  set (u := Text.lstrip (rev t)) in *.
  assert (Ht : t = rev u ++ rev pre).
  { rewrite <- (rev_involutive t), Hpre, rev_app_distr. reflexivity. }
  split.
  - intros c r Hu. rewrite Hu in Ht. cbn in Ht.
    apply (lstrip_head s c (r ++ rev pre)). exact Ht.
  - intros c r Hu.
    assert (Hu' : u = c :: rev r).
    { rewrite <- (rev_involutive u), Hu, rev_app_distr. reflexivity. }
    apply (lstrip_head (rev t) c (rev r)). exact Hu'.
Qed.

Lemma splitlines_from_lines (n : nat) :
  forall (s cur : pystr),
    (length s <= n)%nat ->
    Forall (fun c => Text.islinebreak c = false) cur ->
    Forall (Forall (fun c => Text.islinebreak c = false))
      (Text.splitlines_from cur s).
Proof.
  induction n as [|n IH]; intros s cur Hn Hcur.
  - destruct s; [|cbn in Hn; lia]. cbn.
    destruct cur; repeat constructor. apply Forall_rev. exact Hcur.
  - destruct s as [|c r].
    + cbn. destruct cur; repeat constructor. apply Forall_rev. exact Hcur.
    + cbn [Text.splitlines_from]. cbn in Hn.
      destruct (Text.islinebreak c) eqn:Hc.
      * constructor; [apply Forall_rev; exact Hcur|].
        destruct r as [|d r'].
        -- apply IH; [cbn; lia|constructor].
        -- destruct ((c =? 13) && (d =? 10)).
           ++ apply IH; [cbn in *; lia|constructor].
           ++ apply IH; [cbn in *; lia|constructor].
      * apply IH; [lia|]. constructor; assumption.
Qed.

Lemma join_Forall (P : Z -> Prop) (sp : pystr) (parts : list pystr) :
  Forall P sp -> Forall (Forall P) parts -> Forall P (Text.join sp parts).
Proof.
  intros Hsep. induction parts as [|p rest IH]; intros Hparts.
  - constructor.
  - inversion Hparts as [|? ? Hp Hrest]; subst.
    destruct rest as [|q rest]; [exact Hp|].
    change (Text.join sp (p :: q :: rest))
      with (p ++ sp ++ Text.join sp (q :: rest)).
    rewrite !Forall_app. split; [exact Hp|]. split; [exact Hsep|].
    apply IH. exact Hrest.
Qed.

(** The message [get_errors] builds has white space at neither end. *)
Theorem get_errors_stripped (error_string : pybytes) (message : pystr)
    (Hmsg : get_errors error_string = Ok message) :
  (forall c r, message = c :: r -> Text.isspace c = false)
  /\ (forall c r, message = r ++ [c] -> Text.isspace c = false).
Proof.
  unfold get_errors in Hmsg.
  destruct (Text.utf8_decode error_string) as [text|]; [|discriminate].
  injection Hmsg as <-. apply strip_ends.
Qed.

Lemma get_errors_stripped_witness :
  get_errors (bytes_of "  read_params_file: " ++ [x0a]
                ++ bytes_of "Can't open x " ++ [x0d; x0a])
  = Ok (str "read_params_file:  Can't open x")
  /\ Text.isspace 114 = false /\ Text.isspace 120 = false.
Proof.
  split; [reflexivity|]. split.
  - exact (proj1 (get_errors_stripped
                    (bytes_of "  read_params_file: " ++ [x0a]
                       ++ bytes_of "Can't open x " ++ [x0d; x0a])
                    (str "read_params_file:  Can't open x") eq_refl)
             114 (str "ead_params_file:  Can't open x") eq_refl).
  - exact (proj2 (get_errors_stripped
                    (bytes_of "  read_params_file: " ++ [x0a]
                       ++ bytes_of "Can't open x " ++ [x0d; x0a])
                    (str "read_params_file:  Can't open x") eq_refl)
             120 (str "read_params_file:  Can't open ") eq_refl).
Defined.

(** The message [get_errors] builds is a single line: it holds no line
    boundary, whatever the child wrote. *)
Theorem get_errors_single_line (error_string : pybytes) (message : pystr)
    (Hmsg : get_errors error_string = Ok message) :
  Forall (fun c => Text.islinebreak c = false) message.
Proof.
  unfold get_errors in Hmsg.
  destruct (Text.utf8_decode error_string) as [text|]; [|discriminate].
  injection Hmsg as <-.
  apply strip_Forall, join_Forall.
  - repeat constructor.
  - apply (splitlines_from_lines (length text)); [lia|constructor].
Qed.

Lemma get_errors_single_line_witness :
  Forall (fun c => Text.islinebreak c = false)
    (str "read_params_file:  Can't open x").
Proof.
  apply (get_errors_single_line
           (bytes_of "  read_params_file: " ++ [x0a]
              ++ bytes_of "Can't open x " ++ [x0d; x0a])).
  vm_compute. reflexivity.
Defined.

(** ** What [cleanup] leaves alone *)




(** ** The engine invoker on success *)

(** When the child exits with status 0, [run_tesseract] returns normally
    whatever the child wrote on its standard error, which is not even
    decoded; the files are as the child left them, and only the log of
    launches has grown. *)
Theorem run_tesseract_success (L : lib) (inp base ext : pystr)
    (lang : option pystr) (st : state) (err : pybytes)
    (fs' : gmap pystr pybytes)
    (Hlaunch : os_popen L (cli_contract inp base lang ext) (files st)
               = Exited 0 err fs') :
  run_tesseract L inp base ext lang st
  = (Ok tt,
     State fs' (heap st) (tmp_dir st) (tmp_names st)
       (launched st ++ [cli_contract inp base lang ext]) (pane st)).
Proof.
  rewrite run_tesseract_cases. cbv zeta. rewrite Hlaunch. reflexivity.
Qed.

Lemma run_tesseract_success_witness :
  fst (run_tesseract
         (Bench.mk (Bench.engine 0 (bytes_of "text") [xff; xfe])
            (fun _ => None))
         (str "/tmp/tess_a.PNG") (str "/tmp/tess_a") (str "txt")
         (Some (str "eng")) Bench.st0)
  = Ok tt.
Proof.
  exact (f_equal fst
           (run_tesseract_success
              (Bench.mk (Bench.engine 0 (bytes_of "text") [xff; xfe])
                 (fun _ => None))
              (str "/tmp/tess_a.PNG") (str "/tmp/tess_a") (str "txt")
              (Some (str "eng")) Bench.st0 [xff; xfe] _ eq_refl)).
Defined.

(** ** How often the engine is launched *)

Lemma output_block_launched (L : lib) (ext : pystr) (lang : option pystr)
    (base inp : pystr) (st : state) :
  launched (snd (output_block L ext lang base inp st))
  = launched st ++ [cli_contract inp base lang ext].
Proof.
  unfold output_block, bind. rewrite run_tesseract_cases. cbv zeta.
  destruct (os_popen L _ (files st)) as [errno f|rc err fs']; [reflexivity|].
  destruct (rc =? 0); [|destruct (get_errors err); reflexivity].
  unfold Fs.read. cbn [files set_files].
  destruct (fs' !! _) as [data|]; [|reflexivity].
  destruct (Text.utf8_decode data); reflexivity.
Qed.

Lemma output_block_keeps_heap (L : lib) (ext : pystr) (lang : option pystr)
    (base inp : pystr) :
  preserves heap (output_block L ext lang base inp).
Proof.
  intros st. unfold output_block, bind. rewrite run_tesseract_cases. cbv zeta.
  destruct (os_popen L _ (files st)) as [errno f|rc err fs']; [reflexivity|].
  destruct (rc =? 0); [|destruct (get_errors err); reflexivity].
  unfold Fs.read. cbn [files set_files].
  destruct (fs' !! _) as [data|]; [|reflexivity].
  destruct (Text.utf8_decode data); reflexivity.
Qed.

(** The state a request ends in, once the temporary file exists: the one
    [cleanup] leaves after the body. *)
Lemma request_final_state (L : lib) (image : pyval) (ext : pystr)
    (lang : option pystr) (st st1 : state) (base : pystr) :
  Fs.NamedTemporaryFile st = (Ok base, st1) ->
  snd (run_and_get_output L image ext lang st)
  = snd (cleanup L base
           (snd (save_body L image base (output_block L ext lang) st1))).
Proof.
  intros Htmp. unfold run_and_get_output. rewrite with_save_cases, Htmp.
  destruct (save_body L image base _ st1) as [r st2]. cbn [snd].
  destruct (cleanup L base st2) as [[u|e] st3]; reflexivity.
Qed.

Lemma request_launched (L : lib) (image : pyval) (ext : pystr)
    (lang : option pystr) (st st1 st2 : state) (base inp : pystr) :
  Fs.NamedTemporaryFile st = (Ok base, st1) ->
  save_body L image base (fun _ i => ret i) st1 = (Ok inp, st2) ->
  launched (snd (run_and_get_output L image ext lang st))
  = launched st ++ [cli_contract inp base lang ext].
Proof.
  intros Htmp Hinput.
  rewrite (request_final_state L image ext lang st st1 base Htmp).
  rewrite (keeps_cleanup launched) by reflexivity.
  rewrite save_body_bind, Hinput, output_block_launched.
  pose proof (keeps_save_body launched (fun _ _ => eq_refl)
                (fun _ _ => eq_refl) L image base (fun _ i => ret i)
                (fun _ _ _ => eq_refl) st1) as H2.
  rewrite Hinput in H2. cbn in H2. rewrite H2.
  pose proof (keeps_NamedTemporaryFile launched (fun _ _ => eq_refl)
                (fun _ _ => eq_refl) st) as H1.
  rewrite Htmp in H1. cbn in H1. rewrite H1. reflexivity.
Qed.

(** A request whose input was persisted launches the engine exactly once,
    with the command line of the contract, whatever the engine then does,
    whatever the output file holds and however [cleanup] ends. *)
Theorem request_launches_once (L : lib) (image : pyval) (ext : pystr)
    (lang : option pystr) (st st1 st2 : state) (base inp : pystr)
    (Htmp : Fs.NamedTemporaryFile st = (Ok base, st1))
    (Hinput : save_body L image base (fun _ i => ret i) st1 = (Ok inp, st2)) :
  launched (snd (run_and_get_output L image ext lang st))
  = launched st ++ [cli_contract inp base lang ext].
Proof. exact (request_launched L image ext lang st st1 st2 base inp Htmp Hinput). Qed.

Lemma request_launches_once_witness :
  launched (snd (run_and_get_output
                   (Bench.mk (Bench.engine 3 [] (bytes_of "bad image"))
                      (fun _ => Some 13))
                   (VImage 0) (str "txt") (Some (str "rus")) Bench.st0))
  = [[str "tesseract"; Bench.base ++ str ".PNG"; Bench.base; str "-l";
      str "rus"; str "txt"]].
Proof.
  apply (request_launches_once
           (Bench.mk (Bench.engine 3 [] (bytes_of "bad image"))
              (fun _ => Some 13))
           (VImage 0) (str "txt") (Some (str "rus")) Bench.st0 Bench.st1
           (Bench.st2 (Bench.mk (Bench.engine 3 [] (bytes_of "bad image"))
                         (fun _ => Some 13)))
           Bench.base (Bench.base ++ str ".PNG")).
  - reflexivity.
  - vm_compute. reflexivity.
Defined.

(** ** A request on a file path *)

(** Given a path instead of an image, the wrapper hands the resolved path
    to the engine as it is: nothing is decoded, prepared or encoded, no
    image object is created or changed, and the engine is launched once on
    that path. *)
Theorem request_on_path (L : lib) (path ext : pystr) (lang : option pystr)
    (st st1 : state) (base : pystr)
    (Htmp : Fs.NamedTemporaryFile st = (Ok base, st1)) :
  launched (snd (run_and_get_output L (VStr path) ext lang st))
  = launched st ++ [cli_contract (os_realpath L path) base lang ext]
  /\ heap (snd (run_and_get_output L (VStr path) ext lang st)) = heap st.
Proof.
  split.
  - apply (request_launched L (VStr path) ext lang st st1 st1 base
             (os_realpath L path) Htmp).
    reflexivity.
  - rewrite (request_final_state L (VStr path) ext lang st st1 base Htmp).
    rewrite (keeps_cleanup heap) by reflexivity.
    cbn [save_body]. rewrite output_block_keeps_heap.
    pose proof (keeps_NamedTemporaryFile heap (fun _ _ => eq_refl)
                  (fun _ _ => eq_refl) st) as H1.
    rewrite Htmp in H1. exact H1.
Qed.

Lemma request_on_path_witness :
  launched (snd (run_and_get_output
                   (Bench.mk (Bench.engine 0 (bytes_of "hello world") [])
                      (fun _ => None))
                   (VStr (str "/home/u/scan.png")) (str "txt")
                   (Some (str "eng")) Bench.st0))
  = [[str "tesseract"; str "/home/u/scan.png"; Bench.base; str "-l";
      str "eng"; str "txt"]].
Proof.
  exact (proj1 (request_on_path
                  (Bench.mk (Bench.engine 0 (bytes_of "hello world") [])
                     (fun _ => None))
                  (str "/home/u/scan.png") (str "txt") (Some (str "eng"))
                  Bench.st0 Bench.st1 Bench.base eq_refl)).
Defined.

(** ** Requests that never reach the engine *)



Lemma first_free_taken (dir : pystr) (cands : list pystr)
    (fs : gmap pystr pybytes) :
  Forall (fun c => is_Some (fs !! (dir ++ sep ++ str "tess_" ++ c))) cands ->
  Fs.first_free dir cands fs = None.
Proof.
  induction 1 as [|c cands [d Hd] _ IH]; cbn [Fs.first_free]; [reflexivity|].
  rewrite Hd. exact IH.
Qed.

(** When every candidate name is taken, no temporary file is created, and
    the [finally] clause of [save], which reads the name of a file that
    was never bound, raises [UnboundLocalError] in place of the error of
    the creation; no file is created or removed and the engine is not
    launched. *)
Theorem request_without_temp_file (L : lib) (image : pyval) (ext : pystr)
    (lang : option pystr) (st : state)
    (Htaken : Forall (fun c => is_Some (files st
                        !! (tmp_dir st ++ sep ++ str "tess_" ++ c)))
                (tmp_names st)) :
  fst (run_and_get_output L image ext lang st)
  = Err (UnboundLocalError (str "f"))
  /\ files (snd (run_and_get_output L image ext lang st)) = files st
  /\ heap (snd (run_and_get_output L image ext lang st)) = heap st
  /\ launched (snd (run_and_get_output L image ext lang st)) = launched st.
Proof.
  unfold run_and_get_output. rewrite with_save_cases.
  unfold Fs.NamedTemporaryFile. rewrite (first_free_taken _ _ _ Htaken).
  cbn. repeat split.
Qed.

Lemma request_without_temp_file_witness :
  fst (run_and_get_output
         (Bench.mk (Bench.engine 0 (bytes_of "hello world") [])
            (fun _ => None))
         (VImage 0) (str "txt") (Some (str "eng"))
         (State {[ str "/tmp/tess_a" := [] ]} [Bench.rgb] (str "/tmp")
            [str "a"] [] []))
  = Err (UnboundLocalError (str "f")).
Proof.
  refine (proj1 (request_without_temp_file
                   (Bench.mk (Bench.engine 0 (bytes_of "hello world") [])
                      (fun _ => None))
                   (VImage 0) (str "txt") (Some (str "eng"))
                   (State {[ str "/tmp/tess_a" := [] ]} [Bench.rgb]
                      (str "/tmp") [str "a"] [] []) _)).
  repeat constructor. exists []. vm_compute. reflexivity.
Defined.

(** ** Opening the picture *)

(** When the picture cannot be opened, because the path names no file or
    because the imaging library cannot decode it, [process_image] raises
    that error and nothing has happened: no temporary file, no image
    object, no launch. *)
Theorem process_image_open_failure (L : lib) (image_name lang_code : pystr)
    (st : state) :
  (files st !! image_name = None ->
     process_image L image_name lang_code st
     = (Err (OSError ENOENT image_name), st))
  /\ (forall data e,
        files st !! image_name = Some data -> pil_decode L data = Err e ->
        process_image L image_name lang_code st = (Err e, st)).
Proof.
  unfold process_image, Image_open, bind, Fs.read, lift. split.
  - intros ->. reflexivity.
  - intros data e -> ->. reflexivity.
Qed.


(** ** The input file of the engine *)

Lemma format_tag_not_empty (im : image) : format_tag im <> [].
Proof.
  unfold format_tag. destruct (im_format im) as [[|c f]|]; discriminate.
Qed.

Lemma NamedTemporaryFile_creates (st st1 : state) (base : pystr) :
  Fs.NamedTemporaryFile st = (Ok base, st1) ->
  files st1 = <[base := []]> (files st) /\ heap st1 = heap st.
Proof.
  unfold Fs.NamedTemporaryFile.
  destruct (Fs.first_free _ _ _) as [[name rest]|]; [|discriminate].
  intros H. injection H as <- <-. split; reflexivity.
Qed.

(** What [prepare] returns when it returns: the format tag of the image it
    was given, and an object that carries this tag; the files are as they
    were. *)
Lemma prepare_result (L : lib) (r r' : nat) (im : image) (ext : pystr)
    (st s : state) :
  heap st !! r = Some im ->
  prepare L (VImage r) st = (Ok (r', ext), s) ->
  ext = format_tag im
  /\ files s = files st
  /\ exists im', heap s !! r' = Some im'
                 /\ im_format im' = Some (format_tag im).
Proof.
  intros Href Hrun.
  pose proof (keeps_prepare files (fun _ _ => eq_refl) L (VImage r) st)
    as Hfiles.
  rewrite Hrun in Hfiles. cbn in Hfiles.
  unfold prepare, bind in Hrun. unfold Img.deref at 1 in Hrun.
  rewrite Href in Hrun. fold (format_tag im) in Hrun.
  match type of Hrun with
  | (let (_, _) := ?branch in _) = _ =>
      destruct branch as [[r0|e0] s0]; [|discriminate Hrun]
  end.
  unfold Img.set_format, bind, Img.deref, Img.update, modify in Hrun.
  destruct (heap s0 !! r0) as [im0|] eqn:H0; [|discriminate Hrun].
  cbn in Hrun. injection Hrun as <- <- <-.
  split; [reflexivity|]. split; [exact Hfiles|].
  eexists. cbn [heap set_heap]. split.
  - apply list_lookup_insert_eq. eapply lookup_lt_Some, H0.
  - reflexivity.
Qed.

(** When [save] has persisted an image, the input file is named by the
    temp base name, [extsep] and the format tag of the image ([PNG] when it
    declared none); it holds what the encoder produced, for that tag, from
    the image object [prepare] returned; the temporary file itself is still
    there, empty, and no other file has changed. *)
Theorem input_file_persisted (L : lib) (r : nat) (im : image)
    (st st1 st2 : state) (base inp : pystr)
    (Href : heap st !! r = Some im)
    (Htmp : Fs.NamedTemporaryFile st = (Ok base, st1))
    (Hinput : save_body L (VImage r) base (fun _ i => ret i) st1
              = (Ok inp, st2)) :
  inp = base ++ extsep ++ format_tag im
  /\ files st2 !! base = Some []
  /\ (exists r' s im' data,
        prepare L (VImage r) st1 = (Ok (r', format_tag im), s)
        /\ heap s !! r' = Some im'
        /\ im_format im' = Some (format_tag im)
        /\ pil_encode L im' (format_tag im) = Ok data
        /\ files st2 !! inp = Some data
        /\ heap st2 = heap s)
  /\ (forall p, p <> inp -> files st2 !! p = files st1 !! p).
Proof.
  destruct (NamedTemporaryFile_creates _ _ _ Htmp) as [Hfs1 Hheap1].
  rewrite <- Hheap1 in Href.
  unfold save_body, bind in Hinput.
  destruct (prepare L (VImage r) st1) as [[[r' ext]|e] s] eqn:Hprep;
    [|discriminate Hinput].
  destruct (prepare_result L r r' im ext st1 s Href Hprep)
    as [-> [Hfs [im' [Him' Hfmt]]]].
  cbn [fst snd] in Hinput.
  unfold image_save, bind, Img.deref, lift, Fs.write, modify in Hinput.
  rewrite Him', Hfmt in Hinput. cbn [default] in Hinput.
  unfold id in Hinput.
  destruct (pil_encode L im' (format_tag im)) as [data|e] eqn:Henc;
    unfold ret in Hinput; cbv beta iota in Hinput; [|discriminate Hinput].
  injection Hinput as <- <-. cbn [files heap set_files].
  assert (Hne : base ++ extsep ++ format_tag im <> base).
  { intros H. apply (f_equal (@length Z)) in H.
    rewrite !length_app in H. cbn in H. lia. }
  split; [reflexivity|]. split; [|split].
  - rewrite lookup_insert_ne by exact Hne.
    rewrite Hfs, Hfs1. apply lookup_insert_eq.
  - exists r', s, im', data. split; [reflexivity|]. split; [exact Him'|].
    split; [exact Hfmt|]. split; [exact Henc|].
    split; [apply lookup_insert_eq|reflexivity].
  - intros p Hp. rewrite lookup_insert_ne by congruence.
    rewrite Hfs. reflexivity.
Qed.

Lemma input_file_persisted_witness :
  files (Bench.st2 (Bench.mk Bench.silent_engine (fun _ => None)))
    !! Bench.base = Some []
  /\ files (Bench.st2 (Bench.mk Bench.silent_engine (fun _ => None)))
       !! (Bench.base ++ str ".PNG") = Some (bytes_of "encoded").
Proof.
  destruct (input_file_persisted
              (Bench.mk Bench.silent_engine (fun _ => None))
              0 Bench.rgb Bench.st0 Bench.st1
              (Bench.st2 (Bench.mk Bench.silent_engine (fun _ => None)))
              Bench.base (Bench.base ++ str ".PNG")
              eq_refl eq_refl eq_refl)
    as [_ [Hbase [[r' [s [im' [data [_ [_ [_ [Henc [Hfile _]]]]]]]]] _]]].
  split; [exact Hbase|]. rewrite Hfile. f_equal.
  cbn in Henc. injection Henc as <-. reflexivity.
Defined.

(** ** More on the normalizer *)

Lemma prepare_plain_run (L : lib) (r : nat) (im : image) (st : state) :
  heap st !! r = Some im ->
  Img.has_band (str "A") im = false ->
  prepare L (VImage r) st
  = (Ok (r, format_tag im),
     set_heap (<[r := Image (Some (format_tag im)) (im_mode im) (im_size im)
                         (im_planes im)]> (heap st)) st).
Proof.
  intros Href Hbands. unfold prepare, bind, Img.deref. rewrite Href, Hbands.
  unfold ret, Img.set_format, bind, Img.deref. rewrite Href. reflexivity.
Qed.

(** Preparing an image without a band [A] a second time changes nothing
    more: the same reference and the same tag come back and the state stays
    as the first call left it. *)
Theorem prepare_idempotent (L : lib) (r : nat) (im : image) (st : state)
    (Href : heap st !! r = Some im)
    (Hbands : Img.has_band (str "A") im = false) :
  prepare L (VImage r) (snd (prepare L (VImage r) st))
  = (Ok (r, format_tag im), snd (prepare L (VImage r) st)).
Proof.
  rewrite (prepare_plain_run L r im st Href Hbands). cbn [snd].
  set (im2 := Image (Some (format_tag im)) (im_mode im) (im_size im)
                (im_planes im)).
  assert (Href2 : heap (set_heap (<[r := im2]> (heap st)) st) !! r = Some im2).
  { cbn [heap set_heap]. apply list_lookup_insert_eq.
    eapply lookup_lt_Some, Href. }
  assert (Htag : format_tag im2 = format_tag im).
  { pose proof (format_tag_not_empty im) as Hne.
    unfold format_tag at 1. cbn [im2 im_format].
    destruct (format_tag im); [congruence|reflexivity]. }
  rewrite (prepare_plain_run L r im2 _ Href2 Hbands). rewrite Htag.
  cbn [heap set_heap im2 im_mode im_size im_planes].
  unfold set_heap. cbn [files heap tmp_dir tmp_names launched pane].
  rewrite list_insert_insert_eq. reflexivity.
Qed.

Lemma prepare_idempotent_witness :
  prepare (Bench.mk Bench.silent_engine (fun _ => None)) (VImage 0)
    (snd (prepare (Bench.mk Bench.silent_engine (fun _ => None)) (VImage 0)
            Bench.st0))
  = (Ok (0%nat, str "PNG"),
     snd (prepare (Bench.mk Bench.silent_engine (fun _ => None)) (VImage 0)
            Bench.st0)).
Proof.
  exact (prepare_idempotent (Bench.mk Bench.silent_engine (fun _ => None))
           0 Bench.rgb Bench.st0 eq_refl eq_refl).
Defined.

Lemma zip_over_white_sample (src alpha : list Z) :
  Forall sample src -> Forall sample alpha ->
  Forall sample (zip_with over_white src alpha).
Proof.
  intros Hs. revert alpha. induction Hs as [|c src Hc _ IH]; intros alpha Ha.
  - constructor.
  - destruct Ha as [|a alpha Ha Hrest]; cbn; constructor.
    + apply over_white_sample; assumption.
    + apply IH, Hrest.
Qed.

(** The image [prepare] makes from a well-formed image with a band [A] is
    itself well formed, and pixel by pixel: where the band [A] is 255 the
    colour of the original is kept, and where it is 0 the pixel is white. *)
Theorem prepare_alpha_pixels (L : lib) (r : nat) (im : image) (st : state)
    (R G B alpha : list Z)
    (Href : heap st !! r = Some im)
    (Hbands : Img.has_band (str "A") im = true)
    (Hwf : wf_image im)
    (Hch : Img.getchannel (str "A") im = Ok alpha)
    (Hrgb : Img.rgb_source L im = Ok (R, G, B))
    (Hsamples : Forall sample R /\ Forall sample G /\ Forall sample B)
    (Hsizes : length R = Img.npixels im /\ length G = Img.npixels im
              /\ length B = Img.npixels im) :
  exists out,
    heap (snd (prepare L (VImage r) st)) !! length (heap st) = Some out
    /\ wf_image out
    /\ (forall i, alpha !! i = Some 255 ->
          Img.plane 0 out !! i = R !! i
          /\ Img.plane 1 out !! i = G !! i
          /\ Img.plane 2 out !! i = B !! i)
    /\ (forall i, alpha !! i = Some 0 ->
          Img.plane 0 out !! i = Some 255
          /\ Img.plane 1 out !! i = Some 255
          /\ Img.plane 2 out !! i = Some 255).
Proof.
  destruct (getchannel_alpha im Hwf Hbands) as [alpha' [Hch' [Hlen Halpha]]].
  rewrite Hch in Hch'. injection Hch' as <-.
  destruct Hsamples as [HR [HG HB]]. destruct Hsizes as [LR [LG LB]].
  rewrite (prepare_alpha_run L r im st R G B alpha Href Hbands Hch Hrgb).
  cbn [snd heap set_heap]. eexists.
  split; [apply list_lookup_middle; reflexivity|].
  rewrite !blend_plane_white by (try assumption; lia).
  assert (Hopaque : forall src i, alpha !! i = Some 255 ->
            zip_with over_white src alpha !! i = src !! i).
  { intros src i Hi. rewrite lookup_zip_with, Hi.
    destruct (src !! i) as [c|]; cbn; [|reflexivity].
    rewrite over_white_opaque. reflexivity. }
  assert (Hclear : forall src i, length src = Img.npixels im ->
            alpha !! i = Some 0 ->
            zip_with over_white src alpha !! i = Some 255).
  { intros src i Hsrc Hi. rewrite lookup_zip_with, Hi.
    pose proof (lookup_lt_Some _ _ _ Hi) as Hlt.
    destruct (lookup_lt_is_Some_2 src i ltac:(lia)) as [c ->]. cbn.
    rewrite over_white_transparent. reflexivity. }
  split; [|split].
  - split; [reflexivity|]. unfold Img.npixels. cbn [im_planes im_size].
    fold (Img.npixels im).
    repeat (constructor;
            [split; [rewrite length_zip_with; lia
                    |apply zip_over_white_sample; assumption]|]).
    constructor.
  - intros i Hi. unfold Img.plane. cbn [im_planes].
    change (default [] ([?a; ?b; ?c] !! 0%nat)) with a.
    change (default [] ([?a; ?b; ?c] !! 1%nat)) with b.
    change (default [] ([?a; ?b; ?c] !! 2%nat)) with c.
    repeat split; apply Hopaque; exact Hi.
  - intros i Hi. unfold Img.plane. cbn [im_planes].
    change (default [] ([?a; ?b; ?c] !! 0%nat)) with a.
    change (default [] ([?a; ?b; ?c] !! 1%nat)) with b.
    change (default [] ([?a; ?b; ?c] !! 2%nat)) with c.
    repeat split; apply Hclear; assumption.
Qed.

Lemma prepare_alpha_pixels_witness :
  exists out,
    heap (snd (prepare (Bench.mk Bench.silent_engine (fun _ => None))
                 (VImage 1) Bench.st0)) !! 2%nat = Some out
    /\ wf_image out
    /\ Img.plane 0 out !! 0%nat = Some 10
    /\ Img.plane 0 out !! 1%nat = Some 255.
Proof.
  assert (Hwf : wf_image Bench.rgba).
  { split; [reflexivity|]. unfold sample.
    repeat (constructor; [split; [reflexivity|repeat (constructor; [lia|])]|]);
      constructor. }
  assert (Hs : Forall sample [10; 200] /\ Forall sample [20; 100]
               /\ Forall sample [30; 0]).
  { unfold sample. repeat split; repeat (constructor; [lia|]); constructor. }
  destruct (prepare_alpha_pixels
              (Bench.mk Bench.silent_engine (fun _ => None))
              1 Bench.rgba Bench.st0 [10; 200] [20; 100] [30; 0] [255; 0]
              eq_refl eq_refl Hwf eq_refl eq_refl Hs
              (conj eq_refl (conj eq_refl eq_refl)))
    as [out [Hout [Hwfo [Hopaque Hclear]]]].
  exists out. split; [exact Hout|]. split; [exact Hwfo|]. split.
  - exact (proj1 (Hopaque 0%nat eq_refl)).
  - exact (proj1 (Hclear 1%nat eq_refl)).
Defined.

(** ** More on the event loop *)

(** The turn reads the values before it looks at the event: on
    [None] or [Exit] with values present the loop breaks and nothing has
    changed, whatever the path; without values every turn, the closing
    one included, ends in an uncaught [TypeError]. *)
Theorem loop_exit_and_closed_window (L : lib) (st : state) :
  (forall path rus, loop_turn L None (Some (path, rus)) st = Break st)
  /\ (forall path rus,
        loop_turn L (Some (str "Exit")) (Some (path, rus)) st = Break st)
  /\ (forall event,
        loop_turn L event None st
        = Uncaught (TypeError (str "'NoneType' object is not subscriptable"))
            st)
  /\ (forall path rus later,
        event_loop L ((Some (str "Exit"), Some (path, rus)) :: later) st
        = Break st).
Proof.
  assert (Hexit : forall path rus,
            loop_turn L (Some (str "Exit")) (Some (path, rus)) st = Break st).
  { intros path rus. unfold loop_turn.
    rewrite bool_decide_eq_true_2 by (right; reflexivity). reflexivity. }
  split; [|split; [exact Hexit|split]].
  - intros path rus. unfold loop_turn.
    rewrite bool_decide_eq_true_2 by (left; reflexivity). reflexivity.
  - intros event. reflexivity.
  - intros path rus later. cbn [event_loop]. rewrite Hexit. reflexivity.
Qed.

(** An event that is neither the closing of the window, nor [Exit], nor
    [Submit] is answered like a bad path: the turn prints
    [File path is invalid], even when the path in the field is a valid
    one, and runs no recognition. *)
Theorem other_event_prints_invalid (L : lib) (event path : pystr)
    (rus : bool) (st : state)
    (Hexit : event <> str "Exit")
    (Hsubmit : event <> str "Submit") :
  loop_turn L (Some event) (Some (path, rus)) st
  = Continue (State (files st) (heap st) (tmp_dir st) (tmp_names st)
                (launched st) (pane st ++ [str "File path is invalid"])).
Proof.
  unfold loop_turn.
  rewrite bool_decide_eq_false_2
    by (intros [H|H]; [discriminate H|congruence]).
  rewrite bool_decide_eq_false_2 by congruence. reflexivity.
Qed.

Lemma other_event_prints_invalid_witness :
  loop_turn (Bench.mk Bench.silent_engine (fun _ => None))
    (Some (str "Browse")) (Some (str "/home/u/scan.png", true)) Bench.st0
  = Continue (State (files Bench.st0) (heap Bench.st0) (tmp_dir Bench.st0)
                (tmp_names Bench.st0) (launched Bench.st0)
                (pane Bench.st0 ++ [str "File path is invalid"])).
Proof.
  apply (other_event_prints_invalid
           (Bench.mk Bench.silent_engine (fun _ => None))
           (str "Browse") (str "/home/u/scan.png") true Bench.st0);
    discriminate.
Defined.

(** The loop over two runs of events is the loop over the first, then,
    if it is still running, the loop over the second from the state
    reached; after a break or an uncaught error no event is read. *)
Theorem event_loop_app (L : lib)
    (first second : list (option pystr * option (pystr * bool)))
    (st : state) :
  event_loop L (first ++ second) st
  = match event_loop L first st with
    | Continue st' => event_loop L second st'
    | stop => stop
    end.
Proof.
  revert st. induction first as [|[event values] first IH]; intros st.
  - reflexivity.
  - cbn [app event_loop].
    destruct (loop_turn L event values st) as [st'|st'|e st'];
      [apply IH|reflexivity|reflexivity].
Qed.

(** A Submit whose recognition returns prints the recognised text, that
    and nothing else, and the loop goes on from there. *)
Theorem successful_submit_prints_text (L : lib) (path data : pystr)
    (rus : bool) (st st' : state)
    (Hpath : Re.re_match image_regex path = true)
    (Hok : process_image L path (if rus then str "rus" else str "eng") st
           = (Ok data, st')) :
  loop_turn L (Some (str "Submit")) (Some (path, rus)) st
  = Continue (print data st')
  /\ pane (print data st') = pane st ++ [data]
  /\ forall later,
       event_loop L ((Some (str "Submit"), Some (path, rus)) :: later) st
       = event_loop L later (print data st').
Proof.
  assert (Hturn : loop_turn L (Some (str "Submit")) (Some (path, rus)) st
                  = Continue (print data st')).
  { rewrite submit_turn, Hpath, Hok. reflexivity. }
  split; [exact Hturn|]. split.
  - pose proof (process_image_keeps_pane L path
                  (if rus then str "rus" else str "eng") st) as H.
    rewrite Hok in H. cbn in H. cbn [print pane set_pane]. rewrite H.
    reflexivity.
  - intros later. cbn [event_loop]. rewrite Hturn. reflexivity.
Qed.

Lemma successful_submit_prints_text_witness :
  pane (turn_state
          (loop_turn
             (Bench.mk (Bench.engine 0 (bytes_of "hello world") [])
                (fun _ => None))
             (Some (str "Submit")) (Some (str "/home/u/scan.png", false))
             Bench.st0))
  = [str "hello world"].
Proof.
  destruct (successful_submit_prints_text
              (Bench.mk (Bench.engine 0 (bytes_of "hello world") [])
                 (fun _ => None))
              (str "/home/u/scan.png") (str "hello world") false Bench.st0
              (snd (process_image
                      (Bench.mk (Bench.engine 0 (bytes_of "hello world") [])
                         (fun _ => None))
                      (str "/home/u/scan.png") (str "eng") Bench.st0))
              eq_refl ltac:(vm_compute; reflexivity))
    as [Hturn [Hpane _]].
  rewrite Hturn. exact Hpane.
Defined.

(** The language the engine is asked for is the one of the radio buttons:
    a Submit that gets as far as the engine launches it once, with [-l rus]
    when the first button is selected and [-l eng] otherwise, and with the
    output format [txt]. *)
Theorem submit_language (L : lib) (path : pystr) (rus : bool)
    (st st0 st1 st2 : state) (r : nat) (base inp : pystr)
    (Hpath : Re.re_match image_regex path = true)
    (Hopen : Image_open L path st = (Ok r, st0))
    (Htmp : Fs.NamedTemporaryFile st0 = (Ok base, st1))
    (Hinput : save_body L (VImage r) base (fun _ i => ret i) st1
              = (Ok inp, st2)) :
  launched (turn_state
              (loop_turn L (Some (str "Submit")) (Some (path, rus)) st))
  = launched st
    ++ [[tesseract_cmd; inp; base; str "-l";
         if rus then str "rus" else str "eng"; str "txt"]].
Proof.
  rewrite submit_turn, Hpath.
  assert (Hrun : launched (snd (process_image L path
                                  (if rus then str "rus" else str "eng") st))
                 = launched st
                   ++ [[tesseract_cmd; inp; base; str "-l";
                        if rus then str "rus" else str "eng"; str "txt"]]).
  { unfold process_image, bind. rewrite Hopen.
    unfold image_to_string.
    rewrite (request_launched L (VImage r) (str "txt") _ st0 st1 st2 base inp
               Htmp Hinput).
    pose proof (keeps_Image_open launched (fun _ _ => eq_refl) L path st)
      as H0.
    rewrite Hopen in H0. cbn in H0. rewrite H0. reflexivity. }
  destruct (process_image L path _ st) as [[data|e] s]; exact Hrun.
Qed.

Lemma submit_language_witness :
  launched (turn_state
              (loop_turn (Bench.mk Bench.missing_engine (fun _ => None))
                 (Some (str "Submit")) (Some (str "/home/u/scan.png", true))
                 Bench.st0))
  = [[str "tesseract"; Bench.base ++ str ".PNG"; Bench.base; str "-l";
      str "rus"; str "txt"]].
Proof.
  apply (submit_language (Bench.mk Bench.missing_engine (fun _ => None))
           (str "/home/u/scan.png") true Bench.st0
           (snd (Image_open (Bench.mk Bench.missing_engine (fun _ => None))
                   (str "/home/u/scan.png") Bench.st0))
           (snd (Fs.NamedTemporaryFile
                   (snd (Image_open
                           (Bench.mk Bench.missing_engine (fun _ => None))
                           (str "/home/u/scan.png") Bench.st0))))
           (snd (save_body (Bench.mk Bench.missing_engine (fun _ => None))
                   (VImage 2) Bench.base (fun _ i => ret i)
                   (snd (Fs.NamedTemporaryFile
                           (snd (Image_open
                                   (Bench.mk Bench.missing_engine
                                      (fun _ => None))
                                   (str "/home/u/scan.png") Bench.st0))))))
           2%nat Bench.base (Bench.base ++ str ".PNG")).
  - reflexivity.
  - reflexivity.
  - reflexivity.
  - vm_compute. reflexivity.
Defined.
